(** * Eliminación de archivos duplicados: a verified model

    Shallow embedding of [eliminacion_Archivos_duplicados.py].  The script
    walks a directory, fingerprints every file with SHA-256, groups the
    paths by fingerprint, and for every group of two or more paths keeps
    the most recently modified one and removes the others.

    The Python functions talk to the operating system (open, read, stat,
    walk, remove), to the terminal (print, input) and raise exceptions.
    They are modelled in a small monad over an explicit world: a state
    (the file system and the pending terminal input), a trace of the
    calls made and lines printed, and an exceptional result. *)

From Stdlib Require Import ZArith QArith Lia Lqa Ascii.
From Stdlib.Init Require Import Byte.
From stdpp Require Import base option list gmap strings.

Local Open Scope string_scope.
Local Open Scope list_scope.

(** ** The world *)

(** A path is a Python [str]. *)
Abbreviation ruta := string (only parsing).

(** What the operating system answers about one file.
    - [contenido]: the bytes of the file;
    - [abrible]: whether [open(ruta, "rb")] succeeds;
    - [falla_lectura]: [Some n] when the [n]-th call (from 0) of
      [archivo.read] on this file raises;
    - [fecha]: the answer of [os.path.getmtime], [None] when it raises;
    - [borrable]: whether [os.remove] succeeds. *)
Record archivo := Archivo {
  contenido : list byte;
  abrible : bool;
  falla_lectura : option nat;
  fecha : option Q;
  borrable : bool
}.

(** One step of [os.walk]: [(ruta_actual, subcarpetas, archivos)]. *)
Definition paso_walk : Type := string * list string * list string.

(** The world: the files by path, the directories, what [os.walk] yields
    from each root, how the platform renders a timestamp
    ([datetime.fromtimestamp(f).strftime(...)], [None] when it raises), and
    the lines still to be typed at the terminal. *)
Record mundo := Mundo {
  archivos : gmap string archivo;
  carpetas : gset string;
  recorrido : string -> list paso_walk;
  fecha_legible : Q -> option string;
  entrada : list string
}.

(** ** Exceptions, messages and the trace *)

Inductive excepcion := OSError | ValueError | EOFError | KeyError.

(** One constructor per [print] of the script. *)
Inductive mensaje :=
| MsgTitulo
| MsgRutaInvalida
| MsgEscaneando
| MsgNoSePudoLeer (r : ruta) (e : excepcion)
| MsgBusquedaCompletada
| MsgSinDuplicados
| MsgEncontrados
| MsgRuta (r : ruta)
| MsgUltimaModificacion (f : string)
| MsgLineaEnBlanco
| MsgGrupo (n : nat)
| MsgSeConservara
| MsgSeEliminaran
| MsgEliminado (r : ruta)
| MsgErrorAlEliminar (r : ruta) (e : excepcion)
| MsgProcesoCompletado (total : nat)
| MsgCancelada.

Inductive pregunta := PideCarpeta | PideConfirmacion.

(** What the program does to its environment, in order. *)
Inductive evento :=
| Imprime (m : mensaje)
| Pregunta (p : pregunta)
| EsCarpeta (r : ruta)
| Recorre (r : ruta)
| Abre (r : ruta)
| Consulta (r : ruta)
| Borra (r : ruta).

(** ** The monad *)

(** A run returns a value, raises, or (for the one [while True] loop, which
    is given a bound on its iterations) exhausts its bound. *)
Inductive resultado (A : Type) :=
| Ok (a : A)
| Lanza (e : excepcion)
| Agotado.
Arguments Ok {A} a.
Arguments Lanza {A} e.
Arguments Agotado {A}.

Definition M (A : Type) : Type := mundo -> resultado A * mundo * list evento.

Definition ret {A} (a : A) : M A := fun w => (Ok a, w, []).

Definition bind {A B} (m : M A) (k : A -> M B) : M B := fun w =>
  match m w with
  | (Ok a, w1, t1) =>
      match k a w1 with
      | (r, w2, t2) => (r, w2, t1 ++ t2)
      end
  | (Lanza e, w1, t1) => (Lanza e, w1, t1)
  | (Agotado, w1, t1) => (Agotado, w1, t1)
  end.

Notation "x <- m ;; k" := (bind m (fun x => k))
  (at level 100, m at next level, right associativity).
Notation "m ;;; k" := (bind m (fun _ => k))
  (at level 100, right associativity).

(** [raise]. *)
Definition lanzar {A} (e : excepcion) : M A := fun w => (Lanza e, w, []).

(** [try: m  except Exception as e: h e]. *)
Definition intentar {A} (m : M A) (h : excepcion -> M A) : M A := fun w =>
  match m w with
  | (Ok a, w1, t1) => (Ok a, w1, t1)
  | (Lanza e, w1, t1) =>
      match h e w1 with
      | (r, w2, t2) => (r, w2, t1 ++ t2)
      end
  | (Agotado, w1, t1) => (Agotado, w1, t1)
  end.

Definition agotado {A} : M A := fun w => (Agotado, w, []).

Definition emitir (e : evento) : M unit := fun w => (Ok tt, w, [e]).

Definition print (m : mensaje) : M unit := emitir (Imprime m).

(** [for x in l: s = cuerpo x s], the loop-carried variables in [s]. *)
Fixpoint para_cada {A S} (l : list A) (cuerpo : A -> S -> M S) (s : S) : M S :=
  match l with
  | [] => ret s
  | x :: l' => s' <- cuerpo x s ;; para_cada l' cuerpo s'
  end.

(** Projections of a run. *)
Definition valor {A} (r : resultado A * mundo * list evento) : resultado A := r.1.1.
Definition final {A} (r : resultado A * mundo * list evento) : mundo := r.1.2.
Definition traza {A} (r : resultado A * mundo * list evento) : list evento := r.2.

(** ** Operating-system calls *)

(** [os.path.getmtime(ruta)]. *)
Definition os_path_getmtime (r : ruta) : M Q := fun w =>
  match archivos w !! r with
  | Some a =>
      match fecha a with
      | Some f => (Ok f, w, [Consulta r])
      | None => (Lanza OSError, w, [Consulta r])
      end
  | None => (Lanza OSError, w, [Consulta r])
  end.

(** [os.path.join(a, b)] (posixpath). *)
Definition termina_en_sep (a : string) : bool :=
  match String.length a with
  | O => false
  | S n => bool_decide (String.get n a = Some "/"%char)
  end.

Definition os_path_join (a b : string) : string :=
  if bool_decide (String.get 0 b = Some "/"%char) then b
  else if bool_decide (a = EmptyString) || termina_en_sep a then a ++ b
  else a ++ "/" ++ b.

(** [os.remove(ruta)]: on success the file is gone, from the table and
    from every later directory listing. *)
Definition sin_nombre (r : ruta) (p : paso_walk) : paso_walk :=
  match p with
  | (actual, subs, noms) =>
      (actual, subs, filter (fun n => os_path_join actual n <> r) noms)
  end.

Definition os_remove (r : ruta) : M unit := fun w =>
  match archivos w !! r with
  | Some a =>
      if borrable a then
        (Ok tt,
         {| archivos := delete r (archivos w);
            carpetas := carpetas w;
            recorrido := fun c => map (sin_nombre r) (recorrido w c);
            fecha_legible := fecha_legible w;
            entrada := entrada w |},
         [Borra r])
      else (Lanza OSError, w, [Borra r])
  | None => (Lanza OSError, w, [Borra r])
  end.

(** [os.path.isdir(ruta)]. *)
Definition os_path_isdir (r : ruta) : M bool := fun w =>
  (Ok (bool_decide (r ∈ carpetas w)), w, [EsCarpeta r]).

(** [os.walk(carpeta)], fully enumerated. *)
Definition os_walk (r : ruta) : M (list paso_walk) := fun w =>
  (Ok (recorrido w r), w, [Recorre r]).

(** [input(prompt)]: the next line typed, [EOFError] when there is none. *)
Definition input (p : pregunta) : M string := fun w =>
  match entrada w with
  | l :: resto =>
      (Ok l,
       {| archivos := archivos w; carpetas := carpetas w;
          recorrido := recorrido w; fecha_legible := fecha_legible w;
          entrada := resto |},
       [Pregunta p])
  | [] => (Lanza EOFError, w, [Pregunta p])
  end.

(** [open(ruta, "rb")] and [archivo.read(n)].  The handle remembers what
    is left to read and how many reads were made. *)
Record manejador := Manejador {
  resto : list byte;
  lecturas : nat;
  fallo : option nat
}.

Definition open_rb (r : ruta) : M manejador := fun w =>
  match archivos w !! r with
  | Some a =>
      if abrible a then
        (Ok {| resto := contenido a; lecturas := 0; fallo := falla_lectura a |},
         w, [Abre r])
      else (Lanza OSError, w, [Abre r])
  | None => (Lanza OSError, w, [Abre r])
  end.

Definition read (h : manejador) (n : nat) : M (list byte * manejador) :=
  if bool_decide (fallo h = Some (lecturas h)) then lanzar OSError
  else ret (take n (resto h),
            {| resto := drop n (resto h); lecturas := S (lecturas h);
               fallo := fallo h |}).

(** ** [hashlib.sha256]

    SHA-256 as FIPS 180-4 defines it, as an accumulator with the three
    operations the script uses: [new], [update] and [hexdigest].  Words
    are integers below [2^32]; [update] compresses every complete 64-byte
    block as soon as it is available and keeps the rest pending. *)
Module SHA256.
Local Open Scope Z_scope.

Definition mask32 : Z := 0xffffffff.
Definition add32 (a b : Z) : Z := Z.land (a + b) mask32.
Definition rotr (n x : Z) : Z :=
  Z.land (Z.lor (Z.shiftr x n) (Z.shiftl x (32 - n))) mask32.
Definition shr (n x : Z) : Z := Z.shiftr x n.
Definition not32 (x : Z) : Z := Z.lxor x mask32.

Definition Ch (x y z : Z) : Z := Z.lxor (Z.land x y) (Z.land (not32 x) z).
Definition Maj (x y z : Z) : Z :=
  Z.lxor (Z.lxor (Z.land x y) (Z.land x z)) (Z.land y z).
Definition Sigma0 (x : Z) : Z :=
  Z.lxor (Z.lxor (rotr 2 x) (rotr 13 x)) (rotr 22 x).
Definition Sigma1 (x : Z) : Z :=
  Z.lxor (Z.lxor (rotr 6 x) (rotr 11 x)) (rotr 25 x).
Definition sigma0 (x : Z) : Z :=
  Z.lxor (Z.lxor (rotr 7 x) (rotr 18 x)) (shr 3 x).
Definition sigma1 (x : Z) : Z :=
  Z.lxor (Z.lxor (rotr 17 x) (rotr 19 x)) (shr 10 x).

(** The first 64 primes. *)
Definition primos : list Z :=
  [2; 3; 5; 7; 11; 13; 17; 19; 23; 29; 31; 37; 41; 43; 47; 53; 59; 61; 67;
   71; 73; 79; 83; 89; 97; 101; 103; 107; 109; 113; 127; 131; 137; 139;
   149; 151; 157; 163; 167; 173; 179; 181; 191; 193; 197; 199; 211; 223;
   227; 229; 233; 239; 241; 251; 257; 263; 269; 271; 277; 281; 283; 293;
   307; 311].

(** The integer cube root, bit by bit from bit 40 down. *)
Definition raiz_cubica (n : Z) : Z :=
  fold_left (fun r b =>
      let r' := r + Z.shiftl 1 (Z.of_nat b) in
      if r' * r' * r' <=? n then r' else r)
    (rev (seq 0 41)) 0.

(** The round constants: the first 32 bits of the fractional parts of the
    cube roots of the first 64 primes. *)
Definition K : list Z :=
  Eval vm_compute in
    map (fun p => Z.land (raiz_cubica (Z.shiftl p 96)) mask32) primos.

(** The initial chaining value: the first 32 bits of the fractional parts
    of the square roots of the first 8 primes. *)
Definition H0 : list Z :=
  Eval vm_compute in
    map (fun p => Z.land (Z.sqrt (Z.shiftl p 64)) mask32) (take 8 primos).

Definition Zbyte (b : byte) : Z := Z.of_N (Byte.to_N b).

Definition byteZ (z : Z) : byte :=
  match Byte.of_N (Z.to_N (Z.land z 0xff)) with
  | Some b => b
  | None => x00
  end.

(** The big-endian 32-bit words of a block. *)
Fixpoint palabras (bs : list byte) : list Z :=
  match bs with
  | b0 :: b1 :: b2 :: b3 :: bs' =>
      Z.lor (Z.shiftl (Zbyte b0) 24)
        (Z.lor (Z.shiftl (Zbyte b1) 16)
           (Z.lor (Z.shiftl (Zbyte b2) 8) (Zbyte b3))) :: palabras bs'
  | _ => []
  end.

Definition W_at (w : list Z) (i : nat) : Z := nth i w 0.

(** The message schedule: 16 words of the block, then 48 derived ones. *)
Definition extender (w : list Z) : list Z :=
  let t := length w in
  w ++ [add32 (add32 (sigma1 (W_at w (t - 2))) (W_at w (t - 7)))
              (add32 (sigma0 (W_at w (t - 15))) (W_at w (t - 16)))].

Definition programa (bloque : list byte) : list Z :=
  Nat.iter 48 extender (palabras bloque).

Record vars := Vars {
  va : Z; vb : Z; vc : Z; vd : Z; ve : Z; vf : Z; vg : Z; vh : Z
}.

Definition ronda (v : vars) (kw : Z * Z) : vars :=
  let t1 :=
    add32 (add32 (add32 (vh v) (Sigma1 (ve v))) (Ch (ve v) (vf v) (vg v)))
          (add32 kw.1 kw.2) in
  let t2 := add32 (Sigma0 (va v)) (Maj (va v) (vb v) (vc v)) in
  {| va := add32 t1 t2; vb := va v; vc := vb v; vd := vc v;
     ve := add32 (vd v) t1; vf := ve v; vg := vf v; vh := vg v |}.

Definition de_lista (h : list Z) : vars :=
  {| va := W_at h 0; vb := W_at h 1; vc := W_at h 2; vd := W_at h 3;
     ve := W_at h 4; vf := W_at h 5; vg := W_at h 6; vh := W_at h 7 |}.

Definition a_lista (v : vars) : list Z :=
  [va v; vb v; vc v; vd v; ve v; vf v; vg v; vh v].

(** The compression function on one 64-byte block. *)
Definition comprimir (h : list Z) (bloque : list byte) : list Z :=
  let v := fold_left ronda (zip K (programa bloque)) (de_lista h) in
  zip_with add32 h (a_lista v).

(** Compress the complete blocks of [buf], at most [n] of them, and give
    back what is left. *)
Fixpoint absorber (n : nat) (h : list Z) (buf : list byte)
  : list Z * list byte :=
  match n with
  | O => (h, buf)
  | S n' =>
      if (64 <=? length buf)%nat
      then absorber n' (comprimir h (take 64 buf)) (drop 64 buf)
      else (h, buf)
  end.

(** The accumulator: chaining value, bytes not yet compressed, and the
    number of bytes fed so far. *)
Record t := Acc { estado : list Z; pendiente : list byte; total : nat }.

Definition new : t := {| estado := H0; pendiente := []; total := 0 |}.

Definition update (s : t) (datos : list byte) : t :=
  let buf := pendiente s ++ datos in
  let r := absorber (length buf) (estado s) buf in
  {| estado := r.1; pendiente := r.2; total := total s + length datos |}.

Definition palabra_be (n : nat) (x : Z) : list byte :=
  map (fun i => byteZ (Z.shiftr x (8 * Z.of_nat i))) (rev (seq 0 n)).

(** Padding: a [0x80] byte, zeros up to 56 modulo 64, and the length in
    bits as a 64-bit big-endian integer. *)
Definition relleno (total : nat) : list byte :=
  let k := ((119 - total `mod` 64) `mod` 64)%nat in
  x80 :: replicate k x00 ++ palabra_be 8 (8 * Z.of_nat total).

Definition digest (s : t) : list byte :=
  let buf := pendiente s ++ relleno (total s) in
  let r := absorber (length buf) (estado s) buf in
  concat (map (palabra_be 4) r.1).

Definition hex_digit (n : Z) : ascii :=
  match String.get (Z.to_nat n) "0123456789abcdef" with
  | Some c => c
  | None => "0"%char
  end.

Definition hex (bs : list byte) : string :=
  fold_right (fun b s =>
      String (hex_digit (Z.shiftr (Zbyte b) 4))
        (String (hex_digit (Z.land (Zbyte b) 0xf)) s)) EmptyString bs.

Definition hexdigest (s : t) : string := hex (digest s).

(** The digest of a whole message fed at once. *)
Definition sha256 (m : list byte) : list byte := digest (update new m).

End SHA256.

(** ** Python built-ins used by the script *)

(** [a > b] on timestamps. *)
Definition Qgtb (a b : Q) : bool := negb (Qle_bool a b).

(** [max(l, key=key)]: the first element is the candidate, a later one
    replaces it only when its key is strictly greater; [ValueError] on an
    empty sequence. *)
Definition max_desde {A} (key : A -> Q) (l : list A) (x : A) : A :=
  fold_left (fun m y => if Qgtb (key y) (key m) then y else m) l x.

Definition py_max {A} (key : A -> Q) (l : list A) : M A :=
  match l with
  | [] => lanzar ValueError
  | x :: l' => ret (max_desde key l' x)
  end.

(** A [dict] from digests to lists of paths, in insertion order. *)
Definition dict : Type := list (string * list string).

(** [k in d]. *)
Definition dict_in (k : string) (d : dict) : bool := bool_decide (k ∈ d.*1).

(** [d[k] = v]: replaces the value of a present key where it stands, and
    adds an absent key at the end. *)
Fixpoint dict_set (k : string) (v : list string) (d : dict) : dict :=
  match d with
  | [] => [(k, v)]
  | (k', v') :: d' =>
      if decide (k = k') then (k, v) :: d' else (k', v') :: dict_set k v d'
  end.

(** [d[k]], [KeyError] when absent. *)
Fixpoint dict_get (k : string) (d : dict) : option (list string) :=
  match d with
  | [] => None
  | (k', v') :: d' => if decide (k = k') then Some v' else dict_get k d'
  end.

Definition dict_item (k : string) (d : dict) : M (list string) :=
  match dict_get k d with
  | Some v => ret v
  | None => lanzar KeyError
  end.

(** [str.strip()], [str.strip] of the double-quote character and
    [str.lower()], on strings of 8-bit characters read as the code points
    0 to 255. *)
Definition es_espacio (c : ascii) : bool :=
  let n := nat_of_ascii c in
  ((9 <=? n)%nat && (n <=? 13)%nat) || ((28 <=? n)%nat && (n <=? 32)%nat)
  || (n =? 133)%nat || (n =? 160)%nat.

Fixpoint lstrip (p : ascii -> bool) (s : string) : string :=
  match s with
  | String c s' => if p c then lstrip p s' else s
  | EmptyString => EmptyString
  end.

Fixpoint rstrip (p : ascii -> bool) (s : string) : string :=
  match s with
  | String c s' =>
      match rstrip p s' with
      | EmptyString => if p c then EmptyString else String c EmptyString
      | r => String c r
      end
  | EmptyString => EmptyString
  end.

Definition strip_con (p : ascii -> bool) (s : string) : string :=
  rstrip p (lstrip p s).

Definition strip (s : string) : string := strip_con es_espacio s.

Definition strip_comillas (s : string) : string :=
  strip_con (fun c => bool_decide (c = ascii_of_nat 34)) s.

Definition minuscula (c : ascii) : ascii :=
  let n := nat_of_ascii c in
  if ((65 <=? n)%nat && (n <=? 90)%nat)
     || ((192 <=? n)%nat && (n <=? 222)%nat && negb (n =? 215)%nat)
  then ascii_of_nat (n + 32) else c.

Fixpoint lower (s : string) : string :=
  match s with
  | String c s' => String (minuscula c) (lower s')
  | EmptyString => EmptyString
  end.

(** ** [obtener_hash] *)

(** The [while True] loop: read a block, stop on an empty one, otherwise
    feed it to the accumulator.  [n] bounds the iterations. *)
Fixpoint leer_bloques (n : nat) (archivo : manejador) (sha : SHA256.t)
  : M SHA256.t :=
  match n with
  | O => agotado
  | S n' =>
      lectura <- read archivo 4096 ;;
      let bloque := lectura.1 in
      if bool_decide (bloque = []) then ret sha
      else leer_bloques n' lectura.2 (SHA256.update sha bloque)
  end.

(** [None] is Python's [None]; [Some h] the hexadecimal digest. *)
Definition obtener_hash (ruta_archivo : ruta) : M (option string) :=
  let sha := SHA256.new in
  leido <-
    intentar
      (archivo <- open_rb ruta_archivo ;;
       sha' <- leer_bloques (S (length (resto archivo))) archivo sha ;;
       ret (Some sha'))
      (fun error =>
         print (MsgNoSePudoLeer ruta_archivo error) ;;;
         ret None) ;;
  match leido with
  | None => ret None
  | Some sha' => ret (Some (SHA256.hexdigest sha'))
  end.

(** ** [buscar_duplicados] *)

(** The body of the inner loop, for one file. *)
Definition registrar (ruta_actual nombre : string) (duplicados : dict)
  : M dict :=
  let ruta_completa := os_path_join ruta_actual nombre in
  hash_archivo <- obtener_hash ruta_completa ;;
  match hash_archivo with
  | None => ret duplicados
  | Some h =>
      let duplicados :=
        if dict_in h duplicados then duplicados
        else dict_set h [] duplicados in
      rutas <- dict_item h duplicados ;;
      ret (dict_set h (rutas ++ [ruta_completa]) duplicados)
  end.

Definition buscar_duplicados (carpeta : ruta) : M dict :=
  print MsgEscaneando ;;;
  pasos <- os_walk carpeta ;;
  duplicados <-
    para_cada pasos (fun paso duplicados =>
      para_cada paso.2 (fun nombre duplicados =>
        registrar paso.1.1 nombre duplicados) duplicados) [] ;;
  let duplicados := filter (fun e => 1 < length e.2) duplicados in
  print MsgBusquedaCompletada ;;;
  ret duplicados.

(** ** [archivo_mas_reciente] *)

(** The [try]/[except] around [os.path.getmtime]: 0 when it raises. *)
Definition fecha_modificacion (ruta : string) : M Q :=
  intentar (os_path_getmtime ruta) (fun _ => ret 0%Q).

(** The loop that fills [rutas_con_fechas]. *)
Definition rutas_con_fechas (rutas : list ruta) : M (list (string * Q)) :=
  para_cada rutas (fun ruta acc =>
    f <- fecha_modificacion ruta ;;
    ret (acc ++ [(ruta, f)])) [].

Definition archivo_mas_reciente (rutas : list ruta) : M (ruta * list ruta) :=
  con_fechas <- rutas_con_fechas rutas ;;
  elegido <- py_max snd con_fechas ;;
  let mas_reciente := elegido.1 in
  let copias := filter (fun ruta => ruta <> mas_reciente) rutas in
  ret (mas_reciente, copias).

(** ** [eliminar_duplicados] *)

(** The physical removal of one copy, with its [try]/[except]. *)
Definition eliminar_copia (copia : ruta) (total_eliminados : nat) : M nat :=
  intentar
    (os_remove copia ;;;
     print (MsgEliminado copia) ;;;
     ret (total_eliminados + 1))
    (fun error =>
       print (MsgErrorAlEliminar copia error) ;;;
       ret total_eliminados).

(** The body of the loop over the groups; the loop carries
    [(total_eliminados, numero_grupo)]. *)
Definition eliminar_grupo (grupo : string * list string) (s : nat * nat)
  : M (nat * nat) :=
  let total_eliminados := s.1 in
  let numero_grupo := s.2 in
  print (MsgGrupo numero_grupo) ;;;
  decision <- archivo_mas_reciente grupo.2 ;;
  let mas_reciente := decision.1 in
  let copias := decision.2 in
  print MsgSeConservara ;;;
  print (MsgRuta mas_reciente) ;;;
  print MsgSeEliminaran ;;;
  para_cada copias (fun copia _ => print (MsgRuta copia)) tt ;;;
  total_eliminados <- para_cada copias eliminar_copia total_eliminados ;;
  print MsgLineaEnBlanco ;;;
  ret (total_eliminados, numero_grupo + 1).

Definition eliminar_duplicados (duplicados : dict) : M unit :=
  s <- para_cada duplicados eliminar_grupo (0, 1) ;;
  print (MsgProcesoCompletado s.1).

(** ** [mostrar_duplicados_encontrados] *)

(** [datetime.fromtimestamp(fecha).strftime(...)]: the text the platform
    gives, or an exception when it has none for this value. *)
Definition formatear (f : Q) : M string := fun w =>
  match fecha_legible w f with
  | Some s => (Ok s, w, [])
  | None => (Lanza ValueError, w, [])
  end.

(** The body of the inner loop, for one path. *)
Definition mostrar_ruta (ruta : string) (_ : unit) : M unit :=
  legible <-
    intentar (f <- os_path_getmtime ruta ;; formatear f)
             (fun _ => ret "desconocida") ;;
  print (MsgRuta ruta) ;;;
  print (MsgUltimaModificacion legible).

(** The body of the outer loop, for one group. *)
Definition mostrar_grupo (grupo : string * list string) (_ : unit) : M unit :=
  para_cada grupo.2 mostrar_ruta tt ;;;
  print MsgLineaEnBlanco.

Definition mostrar_duplicados_encontrados (duplicados : dict) : M unit :=
  print MsgEncontrados ;;;
  para_cada duplicados mostrar_grupo tt.

(** ** [main] *)

Definition main : M unit :=
  print MsgTitulo ;;;
  linea <- input PideCarpeta ;;
  let carpeta := strip_comillas (strip linea) in
  es_carpeta <- os_path_isdir carpeta ;;
  if negb es_carpeta then print MsgRutaInvalida
  else
    duplicados <- buscar_duplicados carpeta ;;
    if bool_decide (duplicados = []) then print MsgSinDuplicados
    else
      mostrar_duplicados_encontrados duplicados ;;;
      respuesta <- input PideConfirmacion ;;
      let confirmar := lower (strip respuesta) in
      if bool_decide (confirmar = "si") then eliminar_duplicados duplicados
      else print MsgCancelada.

(** ** Vocabulary of the statements *)

(** [os.path.getmtime] answers for this path. *)
Definition fecha_de (w : mundo) (r : ruta) : option Q :=
  a ← archivos w !! r; fecha a.

(** The timestamp the resolver works with: the real one, or 0. *)
Definition fecha_efectiva (w : mundo) (r : ruta) : Q :=
  default 0%Q (fecha_de w r).

(** The hexadecimal digit read back. *)
Definition valor_hex (c : ascii) : Z :=
  let n := Z.of_nat (nat_of_ascii c) in
  if bool_decide (48 <= n <= 57)%Z then (n - 48)%Z else (n - 87)%Z.

Fixpoint de_hex (s : string) : list byte :=
  match s with
  | String a (String b s') =>
      SHA256.byteZ (16 * valor_hex a + valor_hex b) :: de_hex s'
  | _ => []
  end.

(** The number of non-empty blocks of 4096 bytes in [n] bytes. *)
Definition techo (n : nat) : nat := (n + 4095) / 4096.

(** A read raises before the end of the file is seen: the loop makes the
    reads 0 to [techo (length contenido)], the last one returning the
    empty block. *)
Definition lectura_falla (a : archivo) : bool :=
  match falla_lectura a with
  | Some k => bool_decide (k <= techo (length (contenido a)))
  | None => false
  end.

Definition legible (a : archivo) : bool := abrible a && negb (lectura_falla a).

(** The digest [obtener_hash] is to return for a path. *)
Definition huella (w : mundo) (r : ruta) : option string :=
  match archivos w !! r with
  | Some a =>
      if legible a then Some (SHA256.hex (SHA256.sha256 (contenido a)))
      else None
  | None => None
  end.

(** Only the digits [0-9a-f]. *)
Definition es_hex (c : ascii) : bool :=
  bool_decide (c ∈ String.list_ascii_of_string "0123456789abcdef").

(** The removals attempted and the files opened in a trace, in order. *)
Definition borrados (t : list evento) : list ruta :=
  omap (fun e => match e with Borra r => Some r | _ => None end) t.

Definition abiertos (t : list evento) : list ruta :=
  omap (fun e => match e with Abre r => Some r | _ => None end) t.

(** The paths [os.walk] leads [buscar_duplicados] to, in order. *)
Definition rutas_de (pasos : list paso_walk) : list ruta :=
  flat_map (fun paso => map (os_path_join paso.1.1) paso.2) pasos.

Definition rutas_recorridas (w : mundo) (carpeta : ruta) : list ruta :=
  rutas_de (recorrido w carpeta).

(** The paths among [rutas] whose digest is [h], in order. *)
Definition grupo (w : mundo) (rutas : list ruta) (h : string) : list ruta :=
  filter (fun p => huella w p = Some h) rutas.

(** The dictionary holds exactly the non-empty groups of [rutas]. *)
Definition agrupado (w : mundo) (rutas : list ruta) (d : dict) : Prop :=
  NoDup d.*1 /\
  forall h, dict_get h d
            = if decide (grupo w rutas h = []) then None
              else Some (grupo w rutas h).

(** The path cannot be opened, or a read raises before its end is seen. *)
Definition no_se_puede_leer (w : mundo) (r : ruta) : Prop :=
  match archivos w !! r with
  | None => True
  | Some a =>
      abrible a = false \/
      exists k, falla_lectura a = Some k /\ k <= techo (length (contenido a))
  end.

(** No two entries of the walk have the same digest. *)
Definition sin_repetidos (w : mundo) (rutas : list ruta) : Prop :=
  forall i j p q h,
    i <> j -> rutas !! i = Some p -> rutas !! j = Some q ->
    valor (obtener_hash p w) = Ok (Some h) ->
    valor (obtener_hash q w) <> Ok (Some h).

(** The outcome reported for each removal, in order: the path and
    whether it was removed. *)
Definition resultados (t : list evento) : list (ruta * bool) :=
  omap (fun e => match e with
                 | Imprime (MsgEliminado r) => Some (r, true)
                 | Imprime (MsgErrorAlEliminar r _) => Some (r, false)
                 | _ => None
                 end) t.

(** The paths reported as removed. *)
Definition eliminados (t : list evento) : list ruta :=
  (filter (fun x => x.2 = true) (resultados t)).*1.

(** The paths printed on a line of their own. *)
Definition rutas_impresas (t : list evento) : list ruta :=
  omap (fun e => match e with Imprime (MsgRuta r) => Some r | _ => None end) t.

(** The numbers of the groups announced. *)
Definition grupos_anunciados (t : list evento) : list nat :=
  omap (fun e => match e with Imprime (MsgGrupo n) => Some n | _ => None end) t.

(** The file table without the paths of [l]. *)
Definition sin_rutas (m : gmap string archivo) (l : list ruta)
  : gmap string archivo :=
  fold_left (fun m r => delete r m) l m.

(** What the trace of one group says about that group: one member is
    kept, every other member is listed and then attempted, in order, and
    every attempt is reported. *)
Definition grupo_procesado (g : string * list ruta) (seg : list evento) : Prop :=
  exists k,
    k ∈ g.2 /\
    borrados seg = filter (fun r => r <> k) g.2 /\
    rutas_impresas seg = k :: borrados seg /\
    (resultados seg).*1 = borrados seg.

(** The trace of the body of the loop for one group: [k] is kept, [t]
    is the trace of the removals. *)
Definition traza_grupo (numero : nat) (rutas : list ruta) (k : ruta)
    (t : list evento) : list evento :=
  Imprime (MsgGrupo numero) :: map Consulta rutas
  ++ Imprime MsgSeConservara :: Imprime (MsgRuta k) :: Imprime MsgSeEliminaran
  :: map (fun c => Imprime (MsgRuta c)) (filter (fun r => r <> k) rutas)
  ++ t ++ [Imprime MsgLineaEnBlanco].

(** The world with other lines left to type. *)
Definition con_entrada (w : mundo) (l : list string) : mundo :=
  {| archivos := archivos w; carpetas := carpetas w;
     recorrido := recorrido w; fecha_legible := fecha_legible w;
     entrada := l |}.

(** The folders walked in a trace. *)
Definition recorridas (t : list evento) : list ruta :=
  omap (fun e => match e with Recorre r => Some r | _ => None end) t.

(** The distinct elements of a list, in the order of their first
    appearance. *)
Definition primeras (l : list string) : list string :=
  fold_left (fun acc h => if decide (h ∈ acc) then acc else acc ++ [h]) l [].

(** What [obtener_hash] leaves in the trace for each path of [rutas]. *)
Definition traza_lecturas (w : mundo) (rutas : list ruta) : list evento :=
  flat_map (fun p =>
      Abre p :: match huella w p with
                | Some _ => []
                | None => [Imprime (MsgNoSePudoLeer p OSError)]
                end) rutas.

(** The groups of two or more among [rutas], by digest in the order in
    which the digests first appear. *)
Definition grupos_de (w : mundo) (rutas : list ruta) : dict :=
  filter (fun e => 1 < length e.2)
    (map (fun h => (h, grupo w rutas h))
       (primeras (omap (huella w) rutas))).

(** The paths reported as not readable in a trace. *)
Definition no_leidos (t : list evento) : list ruta :=
  omap (fun e => match e with
                 | Imprime (MsgNoSePudoLeer r _) => Some r
                 | _ => None
                 end) t.

(** [os.remove] would succeed on this path. *)
Definition se_puede_borrar (w : mundo) (r : ruta) : Prop :=
  exists a, archivos w !! r = Some a /\ borrable a = true.

(** The world once [os.remove] has removed [r]. *)
Definition mundo_sin (w : mundo) (r : ruta) : mundo :=
  {| archivos := delete r (archivos w);
     carpetas := carpetas w;
     recorrido := fun c => map (sin_nombre r) (recorrido w c);
     fecha_legible := fecha_legible w;
     entrada := entrada w |}.

(** The trace of removals that all succeed. *)
Definition traza_borrados (l : list ruta) : list evento :=
  flat_map (fun c => [Borra c; Imprime (MsgEliminado c)]) l.

(** The copies of each group, given the path kept in each. *)
Definition copias_de (d : dict) (ks : list ruta) : list ruta :=
  concat (zip_with (fun (g : string * list string) k =>
                      filter (fun r => r <> k) g.2) d ks).

(** The date text [mostrar_duplicados_encontrados] prints for a path. *)
Definition texto_fecha (w : mundo) (r : ruta) : string :=
  match fecha_de w r with
  | Some f => default "desconocida" (fecha_legible w f)
  | None => "desconocida"
  end.

(** The trace of [mostrar_duplicados_encontrados]. *)
Definition traza_mostrar_grupo (w : mundo) (g : string * list ruta)
  : list evento :=
  flat_map (fun r => [Consulta r; Imprime (MsgRuta r);
                      Imprime (MsgUltimaModificacion (texto_fecha w r))]) g.2
  ++ [Imprime MsgLineaEnBlanco].

Definition traza_mostrar (w : mundo) (d : dict) : list evento :=
  Imprime MsgEncontrados :: flat_map (traza_mostrar_grupo w) d.

(** The questions asked in a trace. *)
Definition preguntas (t : list evento) : list pregunta :=
  omap (fun e => match e with Pregunta p => Some p | _ => None end) t.

(** A string of white space only. *)
Fixpoint blancos (s : string) : bool :=
  match s with
  | EmptyString => true
  | String c s' => es_espacio c && blancos s'
  end.

(** ** Example worlds *)

(** Worlds for the examples: a folder [d] whose files are given with
    their bytes and what the system answers about them. *)
Definition bytes_de (s : string) : list byte :=
  map byte_of_ascii (String.list_ascii_of_string s).

Definition fichero (c : string) (f : option Q) : archivo :=
  {| contenido := bytes_de c; abrible := true; falla_lectura := None;
     fecha := f; borrable := true |}.

Definition mundo_de (fs : list (string * archivo)) (noms lineas : list string)
  : mundo :=
  {| archivos := list_to_map fs;
     carpetas := {["d"]};
     recorrido := fun c => if bool_decide (c = "d") then [("d", [], noms)] else [];
     fecha_legible := fun _ => Some "fecha";
     entrada := lineas |}.

(** [a] cannot be stat-ed, [b] is dated at the epoch. *)
Definition mundo_epoca : mundo :=
  mundo_de [("d/a", fichero "x" None); ("d/b", fichero "x" (Some 0%Q))]
           ["a"; "b"] [].

(** [a] cannot be stat-ed, [b] is dated before the epoch. *)
Definition mundo_antiguo : mundo :=
  mundo_de [("d/a", fichero "x" None); ("d/b", fichero "x" (Some (-5)%Q))]
           ["a"; "b"] [].

(** [a] cannot be stat-ed, [b] and [c] share the latest date. *)
Definition mundo_empate : mundo :=
  mundo_de [("d/a", fichero "x" None); ("d/b", fichero "x" (Some 7%Q));
            ("d/c", fichero "x" (Some 7%Q))]
           ["a"; "b"; "c"] [].

(** Two files with the bytes [abc], one with other bytes, one that
    cannot be opened and one whose second read raises. *)
Definition mundo_abc : mundo :=
  mundo_de [("d/a", fichero "abc" (Some 1%Q)); ("d/b", fichero "abc" (Some 2%Q));
            ("d/c", fichero "xyz" (Some 3%Q));
            ("d/e", {| contenido := bytes_de "abc"; abrible := false;
                       falla_lectura := None; fecha := Some 4%Q;
                       borrable := true |});
            ("d/f", {| contenido := bytes_de "abc"; abrible := true;
                       falla_lectura := Some 1; fecha := Some 5%Q;
                       borrable := true |})]
           ["a"; "b"; "c"; "e"; "f"] [].

(** The same files walked in the opposite order. *)
Definition mundo_abc_al_reves : mundo :=
  {| archivos := archivos mundo_abc;
     carpetas := carpetas mundo_abc;
     recorrido := fun c =>
       if bool_decide (c = "d") then [("d", [], ["f"; "e"; "c"; "b"; "a"])]
       else [];
     fecha_legible := fecha_legible mundo_abc;
     entrada := [] |}.

(** Two groups; [a], the oldest of the first, cannot be removed. *)
Definition mundo_fallo : mundo :=
  mundo_de [("d/a", {| contenido := bytes_de "x"; abrible := true;
                       falla_lectura := None; fecha := Some 1%Q;
                       borrable := false |});
            ("d/b", fichero "x" (Some 2%Q)); ("d/c", fichero "x" (Some 3%Q));
            ("d/e", fichero "y" (Some 1%Q)); ("d/f", fichero "y" (Some 2%Q))]
           ["a"; "b"; "c"; "e"; "f"] ["d"; "si"].

Definition grupos_fallo : dict :=
  [("x", ["d/a"; "d/b"; "d/c"]); ("y", ["d/e"; "d/f"])].

(** A world whose user types a path that is not a folder. *)
Definition mundo_raiz_invalida : mundo :=
  mundo_de [("d/a", fichero "x" (Some 1%Q)); ("d/b", fichero "x" (Some 2%Q))]
           ["a"; "b"] ["  otra  "; "si"].

(** Two copies of the same bytes in the folder [d]; the user gives the
    folder between quotes and spaces, and then the second line. *)
Definition mundo_pregunta (respuesta : string) : mundo :=
  mundo_de [("d/a", fichero "x" (Some 1%Q)); ("d/b", fichero "x" (Some 2%Q));
            ("d/c", fichero "y" (Some 3%Q))]
           ["a"; "b"; "c"]
           [String (ascii_of_nat 34) "d" +:+ String (ascii_of_nat 34) " ";
            respuesta].

(** Three files that all differ; the user types the folder and [si]. *)
Definition mundo_unicos : mundo :=
  mundo_de [("d/a", fichero "x" (Some 1%Q)); ("d/b", fichero "y" (Some 2%Q));
            ("d/c", fichero "z" (Some 3%Q))]
           ["a"; "b"; "c"] ["d"; "si"].

(** * Properties *)

(** ** The library models on known values *)

(** SHA-256 of the empty message, of [abc] and of the 56-byte message of
    FIPS 180-4, whose padding needs a second block. *)
Example sha256_vacio :
  SHA256.hexdigest SHA256.new
  = "e3b0c44298fc1c149afbf4c8996fb92427ae41e4649b934ca495991b7852b855".
Proof. vm_compute. reflexivity. Qed.

Example sha256_abc :
  SHA256.hex (SHA256.sha256 (bytes_de "abc"))
  = "ba7816bf8f01cfea414140de5dae2223b00361a396177a9cb410ff61f20015ad".
Proof. vm_compute. reflexivity. Qed.

Example sha256_dos_bloques :
  SHA256.hex (SHA256.sha256
    (bytes_de "abcdbcdecdefdefgefghfghighijhijkijkljklmklmnlmnomnopnopq"))
  = "248d6a61d20638b8e5c026930c3e6039a33ce45964ff2167f6ecedd419db06c1".
Proof. vm_compute. reflexivity. Qed.

(** The constants derived from the primes are the published ones. *)
Example sha256_constantes :
  SHA256.K !! 0 = Some 0x428a2f98%Z /\ SHA256.K !! 63 = Some 0xc67178f2%Z /\
  length SHA256.K = 64 /\
  SHA256.H0 !! 0 = Some 0x6a09e667%Z /\ SHA256.H0 !! 7 = Some 0x5be0cd19%Z.
Proof. vm_compute. done. Qed.

(** [os.path.join]. *)
Example os_path_join_ejemplos :
  os_path_join "d" "a" = "d/a" /\
  os_path_join "d/" "a" = "d/a" /\
  os_path_join "d/sub" "a.txt" = "d/sub/a.txt" /\
  os_path_join "d" "/a" = "/a" /\
  os_path_join EmptyString "a" = "a".
Proof. vm_compute. done. Qed.

(** [strip] removes blanks, tabs and line ends at both ends only;
    [lower] leaves what is not an upper-case letter. *)
Example strip_lower_ejemplos :
  strip (String (ascii_of_nat 9) " s i  ") = "s i" /\
  strip "   " = EmptyString /\
  strip_comillas (String (ascii_of_nat 34) "C:/x y" +:+ String (ascii_of_nat 34) EmptyString)
  = "C:/x y" /\
  lower "Si" = "si" /\ lower "SI" = "si" /\ lower "s1" = "s1" /\
  lower (strip "  sI ") = "si".
Proof. vm_compute. done. Qed.

(** ** The monad *)

Lemma bind_Ok {A B} (m : M A) (k : A -> M B) w a w1 t1 :
  m w = (Ok a, w1, t1) ->
  bind m k w = ((k a w1).1.1, (k a w1).1.2, t1 ++ (k a w1).2).
Proof. intros H. unfold bind. rewrite H. by destruct (k a w1) as [[??]?]. Qed.

Lemma bind_Lanza {A B} (m : M A) (k : A -> M B) w e w1 t1 :
  m w = (Lanza e, w1, t1) -> bind m k w = (Lanza e, w1, t1).
Proof. intros H. unfold bind. by rewrite H. Qed.

Lemma bind_ret {A B} (a : A) (k : A -> M B) w : bind (ret a) k w = k a w.
Proof. unfold bind, ret. by destruct (k a w) as [[??]?]. Qed.

Lemma bind_print {B} (m : mensaje) (k : unit -> M B) w :
  bind (print m) k w = ((k tt w).1.1, (k tt w).1.2, Imprime m :: (k tt w).2).
Proof. unfold bind, print, emitir. by destruct (k tt w) as [[??]?]. Qed.

(** ** Timestamps *)

Lemma Qgtb_true a b : Qgtb a b = true <-> (b < a)%Q.
Proof.
  unfold Qgtb. rewrite negb_true_iff, <- not_true_iff_false, Qle_bool_iff.
  split; [apply Qnot_le_lt | apply Qlt_not_le].
Qed.

Lemma Qgtb_false a b : Qgtb a b = false <-> (a <= b)%Q.
Proof.
  unfold Qgtb. rewrite negb_false_iff. apply Qle_bool_iff.
Qed.

Lemma fecha_modificacion_run w r :
  fecha_modificacion r w = (Ok (fecha_efectiva w r), w, [Consulta r]).
Proof.
  unfold fecha_modificacion, intentar, os_path_getmtime, fecha_efectiva, fecha_de.
  destruct (archivos w !! r) as [a|]; simpl; [|done].
  by destruct (fecha a).
Qed.

Lemma rutas_con_fechas_desde w rutas acc :
  para_cada rutas (fun ruta acc =>
    f <- fecha_modificacion ruta ;;
    ret (acc ++ [(ruta, f)])) acc w
  = (Ok (acc ++ map (fun r => (r, fecha_efectiva w r)) rutas), w,
     map Consulta rutas).
Proof.
  revert acc. induction rutas as [|r rutas IH]; intros acc; simpl.
  - by rewrite app_nil_r.
  - erewrite bind_Ok; last first.
    { erewrite bind_Ok by apply fecha_modificacion_run. simpl. reflexivity. }
    rewrite IH. simpl. by rewrite <- app_assoc.
Qed.

Lemma rutas_con_fechas_run w rutas :
  rutas_con_fechas rutas w
  = (Ok (map (fun r => (r, fecha_efectiva w r)) rutas), w, map Consulta rutas).
Proof. apply rutas_con_fechas_desde. Qed.

(** ** [max]: the first of the greatest *)

Lemma max_desde_cons {A} (key : A -> Q) (l : list A) (y m : A) :
  max_desde key (y :: l) m
  = max_desde key l (if Qgtb (key y) (key m) then y else m).
Proof. reflexivity. Qed.

(** Invariant of the scan: the candidate [m] is strictly above what came
    before it and not below what came after it. *)
Lemma max_desde_primero {A} (key : A -> Q) (l pre post : list A) (m : A) :
  Forall (fun y => (key y < key m)%Q) pre ->
  Forall (fun y => (key y <= key m)%Q) post ->
  exists l1 l2,
    pre ++ m :: post ++ l = l1 ++ max_desde key l m :: l2 /\
    Forall (fun y => (key y < key (max_desde key l m))%Q) l1 /\
    Forall (fun y => (key y <= key (max_desde key l m))%Q) l2.
Proof.
  revert pre post m. induction l as [|y l IH]; intros pre post m Hpre Hpost.
  - exists pre, post. by rewrite app_nil_r.
  - rewrite max_desde_cons.
    destruct (Qgtb (key y) (key m)) eqn:Hgt.
    + apply Qgtb_true in Hgt.
      destruct (IH (pre ++ m :: post) [] y) as (l1 & l2 & Heq & H1 & H2).
      * rewrite Forall_app, Forall_cons. split_and!; [|done|].
        -- eapply Forall_impl; [exact Hpre|]. simpl. intros z Hz.
           by apply Qlt_trans with (key m).
        -- eapply Forall_impl; [exact Hpost|]. simpl. intros z Hz.
           by apply Qle_lt_trans with (key m).
      * constructor.
      * exists l1, l2. split; [|done].
        rewrite <- Heq. simpl. by rewrite <- app_assoc.
    + apply Qgtb_false in Hgt.
      destruct (IH pre (post ++ [y]) m) as (l1 & l2 & Heq & H1 & H2).
      * done.
      * rewrite Forall_app, Forall_singleton. done.
      * exists l1, l2. split; [|done].
        rewrite <- Heq. by rewrite <- app_assoc.
Qed.

Lemma max_desde_es_primero {A} (key : A -> Q) (l : list A) (x : A) :
  exists l1 l2,
    x :: l = l1 ++ max_desde key l x :: l2 /\
    Forall (fun y => (key y < key (max_desde key l x))%Q) l1 /\
    Forall (fun y => (key y <= key (max_desde key l x))%Q) l2.
Proof. apply (max_desde_primero key l [] [] x); constructor. Qed.

(** ** [archivo_mas_reciente] *)

(** The path [max] settles on for a non-empty group. *)
Lemma archivo_mas_reciente_run w rutas :
  rutas <> [] ->
  exists k r1 r2,
    archivo_mas_reciente rutas w
    = (Ok (k, filter (fun r => r <> k) rutas), w, map Consulta rutas) /\
    rutas = r1 ++ k :: r2 /\
    Forall (fun y => (fecha_efectiva w y < fecha_efectiva w k)%Q) r1 /\
    Forall (fun y => (fecha_efectiva w y <= fecha_efectiva w k)%Q) r2.
Proof.
  intros Hne. destruct rutas as [|r rs]; [done|].
  set (par := fun r => (r, fecha_efectiva w r)).
  destruct (max_desde_es_primero snd (map par rs) (par r))
    as (l1 & l2 & Heq & H1 & H2).
  set (e := max_desde snd (map par rs) (par r)) in *.
  change (par r :: map par rs) with (map par (r :: rs)) in Heq.
  apply map_eq_app in Heq as (r1 & r2' & Hr & Hl1 & Hl2).
  apply map_eq_cons in Hl2 as (k & r2 & -> & Hk & Hr2).
  subst l1 l2. exists k, r1, r2.
  assert (Hk1 : e.1 = k) by (by rewrite <- Hk).
  assert (Hk2 : e.2 = fecha_efectiva w k) by (by rewrite <- Hk).
  split_and!.
  - unfold archivo_mas_reciente.
    erewrite bind_Ok by apply rutas_con_fechas_run. simpl.
    subst e par. simpl in Hk1. rewrite Hk1. by rewrite app_nil_r.
  - done.
  - rewrite Forall_forall in H1. apply Forall_forall. intros y Hy.
    rewrite <- Hk2. apply (H1 (par y)). apply list_elem_of_In, in_map.
    by apply list_elem_of_In.
  - rewrite Forall_forall in H2. apply Forall_forall. intros y Hy.
    rewrite <- Hk2. apply (H2 (par y)). apply list_elem_of_In, in_map.
    by apply list_elem_of_In.
Qed.

Lemma archivo_mas_reciente_vacio w :
  archivo_mas_reciente [] w = (Lanza ValueError, w, []).
Proof. reflexivity. Qed.

Lemma filter_todos {A} (P : A -> Prop) `{!forall x, Decision (P x)} (l : list A) :
  Forall P l -> filter P l = l.
Proof.
  induction 1 as [|x l Hx _ IH]; [done|].
  by rewrite filter_cons_True, IH.
Qed.

Lemma filter_distinto (r1 r2 : list string) (k : string) :
  NoDup (r1 ++ k :: r2) ->
  filter (fun r => r <> k) (r1 ++ k :: r2) = r1 ++ r2.
Proof.
  intros Hnd. apply NoDup_app in Hnd as (_ & Hk1 & Hnd).
  apply NoDup_cons in Hnd as [Hk2 _].
  rewrite filter_app, filter_cons_False by (intros H; by apply H).
  rewrite !filter_todos; [done| |].
  - apply Forall_forall. intros x Hx ->. done.
  - apply Forall_forall. intros x Hx ->. apply (Hk1 k); [done|]. left.
Qed.

(** C1: for a group of pairwise distinct paths the resolver returns one
    kept path, a member of the group whose effective timestamp is not
    below that of any member, and a delete list that is the group without
    the kept path: the group is the kept path together with the delete
    list, and the kept path is not in the delete list. *)
Theorem retencion_particion (w : mundo) (rutas : list ruta) :
  NoDup rutas -> rutas <> [] ->
  exists mas_reciente copias,
    valor (archivo_mas_reciente rutas w) = Ok (mas_reciente, copias) /\
    mas_reciente ∈ rutas /\
    (forall r, r ∈ rutas ->
       (fecha_efectiva w r <= fecha_efectiva w mas_reciente)%Q) /\
    (forall r, r ∈ rutas <-> r = mas_reciente \/ r ∈ copias) /\
    (mas_reciente ∉ copias) /\
    (rutas ≡ₚ mas_reciente :: copias) /\
    length copias + 1 = length rutas.
Proof.
  intros Hnd Hne.
  destruct (archivo_mas_reciente_run w rutas Hne)
    as (k & r1 & r2 & Hrun & Hr & H1 & H2).
  exists k, (filter (fun r => r <> k) rutas).
  assert (Hcop : filter (fun r => r <> k) rutas = r1 ++ r2).
  { rewrite Hr. apply filter_distinto. by rewrite <- Hr. }
  split_and!.
  - by rewrite Hrun.
  - rewrite Hr. set_solver.
  - intros r. rewrite Hr, elem_of_app, elem_of_cons.
    rewrite Forall_forall in H1. rewrite Forall_forall in H2.
    intros [Hin|[->|Hin]]; [apply Qlt_le_weak; auto|apply Qle_refl|auto].
  - intros r. rewrite list_elem_of_filter.
    destruct (decide (r = k)) as [->|Hrk]; [|tauto].
    split; [auto|]. intros _. rewrite Hr. set_solver.
  - rewrite list_elem_of_filter. tauto.
  - rewrite Hcop, Hr. by rewrite Permutation_middle.
  - rewrite Hcop, Hr. rewrite !length_app. simpl. lia.
Qed.

Lemma retencion_particion_witness :
  NoDup ["d/a"; "d/b"; "d/c"] /\ ["d/a"; "d/b"; "d/c"] <> [] /\
  exists mas_reciente copias,
    valor (archivo_mas_reciente ["d/a"; "d/b"; "d/c"] mundo_empate)
    = Ok (mas_reciente, copias) /\
    mas_reciente ∈ ["d/a"; "d/b"; "d/c"] /\
    (forall r, r ∈ ["d/a"; "d/b"; "d/c"] ->
       (fecha_efectiva mundo_empate r
        <= fecha_efectiva mundo_empate mas_reciente)%Q) /\
    (forall r, r ∈ ["d/a"; "d/b"; "d/c"] <-> r = mas_reciente \/ r ∈ copias) /\
    (mas_reciente ∉ copias) /\
    (["d/a"; "d/b"; "d/c"] ≡ₚ mas_reciente :: copias) /\
    length copias + 1 = length ["d/a"; "d/b"; "d/c"].
Proof.
  assert (Hnd : NoDup ["d/a"; "d/b"; "d/c"]).
  { refine (bool_decide_unpack _ _). vm_compute. exact I. }
  split; [exact Hnd|]. split; [discriminate|].
  apply (retencion_particion mundo_empate ["d/a"; "d/b"; "d/c"]);
    [exact Hnd|discriminate].
Defined.

(** ** Files without a readable timestamp *)

(** The substitute: a path that cannot be stat-ed is paired with 0. *)
Lemma rutas_con_fechas_sin_fecha w rutas p :
  p ∈ rutas -> fecha_de w p = None ->
  exists con_fechas,
    valor (rutas_con_fechas rutas w) = Ok con_fechas /\
    (p, 0%Q) ∈ con_fechas /\
    (forall t, (p, t) ∈ con_fechas -> t = 0%Q).
Proof.
  intros Hin Hp. eexists. rewrite rutas_con_fechas_run. split; [done|].
  assert (H0 : fecha_efectiva w p = 0%Q) by (unfold fecha_efectiva; by rewrite Hp).
  split.
  - rewrite <- H0. apply list_elem_of_In.
    apply (in_map (fun r => (r, fecha_efectiva w r))). by apply list_elem_of_In.
  - intros t Ht. apply list_elem_of_In, in_map_iff in Ht as (r & Hr & _).
    inversion Hr; subst. done.
Qed.

(** The claim of C2 fails on a group whose first member cannot be
    stat-ed and whose other member is dated exactly at the epoch: both
    carry the timestamp 0 and [max] keeps the first. *)
Lemma sin_fecha_conservado_epoca :
  fecha_de mundo_epoca "d/a" = None /\
  fecha_de mundo_epoca "d/b" = Some 0%Q /\
  valor (archivo_mas_reciente ["d/a"; "d/b"] mundo_epoca)
  = Ok ("d/a", ["d/b"]).
Proof. vm_compute. done. Qed.

(** The same with a file dated before the epoch, in either order. *)
Example sin_fecha_conservado_antiguo :
  fecha_de mundo_antiguo "d/a" = None /\
  fecha_de mundo_antiguo "d/b" = Some (-5)%Q /\
  valor (archivo_mas_reciente ["d/b"; "d/a"] mundo_antiguo)
  = Ok ("d/a", ["d/b"]).
Proof. vm_compute. done. Qed.

(** C2, amended: a member whose timestamp cannot be read is given the
    timestamp 0, and it is not kept (it is in the delete list) whenever
    some member of the group has a readable timestamp above 0; the kept
    path then has a readable timestamp. *)
Theorem sin_fecha_no_conservado (w : mundo) (rutas : list ruta) (p q : ruta) (t : Q) :
  p ∈ rutas -> q ∈ rutas ->
  fecha_de w p = None ->
  fecha_de w q = Some t -> (0 < t)%Q ->
  exists con_fechas mas_reciente copias,
    valor (rutas_con_fechas rutas w) = Ok con_fechas /\
    (p, 0%Q) ∈ con_fechas /\
    (forall t', (p, t') ∈ con_fechas -> t' = 0%Q) /\
    valor (archivo_mas_reciente rutas w) = Ok (mas_reciente, copias) /\
    mas_reciente <> p /\
    p ∈ copias /\
    is_Some (fecha_de w mas_reciente).
Proof.
  intros Hp Hq Hnone Hsome Ht.
  destruct (rutas_con_fechas_sin_fecha w rutas p Hp Hnone) as (cf & Hcf & H0 & Hz).
  assert (Hne : rutas <> []) by (intros ->; by apply elem_of_nil in Hp).
  destruct (archivo_mas_reciente_run w rutas Hne)
    as (k & r1 & r2 & Hrun & Hr & H1 & H2).
  assert (Hqk : (fecha_efectiva w q <= fecha_efectiva w k)%Q).
  { rewrite Forall_forall in H1. rewrite Forall_forall in H2.
    rewrite Hr, elem_of_app, elem_of_cons in Hq.
    destruct Hq as [Hq|[->|Hq]]; [apply Qlt_le_weak; auto|apply Qle_refl|auto]. }
  assert (Hpos : (0 < fecha_efectiva w k)%Q).
  { eapply Qlt_le_trans; [exact Ht|].
    unfold fecha_efectiva in Hqk at 1. by rewrite Hsome in Hqk. }
  assert (Hkp : k <> p).
  { intros ->. unfold fecha_efectiva in Hpos. rewrite Hnone in Hpos.
    simpl in Hpos. by apply Qlt_irrefl in Hpos. }
  exists cf, k, (filter (fun r => r <> k) rutas). split_and!; try done.
  - by rewrite Hrun.
  - apply list_elem_of_filter. split; [congruence|done].
  - unfold fecha_efectiva in Hpos. destruct (fecha_de w k); [done|].
    simpl in Hpos. by apply Qlt_irrefl in Hpos.
Qed.

Lemma sin_fecha_no_conservado_witness :
  "d/a" ∈ ["d/a"; "d/b"; "d/c"] /\ "d/c" ∈ ["d/a"; "d/b"; "d/c"] /\
  fecha_de mundo_empate "d/a" = None /\
  fecha_de mundo_empate "d/c" = Some 7%Q /\ (0 < 7)%Q /\
  exists con_fechas mas_reciente copias,
    valor (rutas_con_fechas ["d/a"; "d/b"; "d/c"] mundo_empate) = Ok con_fechas /\
    (("d/a", 0%Q) ∈ con_fechas) /\
    (forall t', ("d/a", t') ∈ con_fechas -> t' = 0%Q) /\
    valor (archivo_mas_reciente ["d/a"; "d/b"; "d/c"] mundo_empate)
    = Ok (mas_reciente, copias) /\
    mas_reciente <> "d/a" /\
    ("d/a" ∈ copias) /\
    is_Some (fecha_de mundo_empate mas_reciente).
Proof.
  assert (Ha : "d/a" ∈ ["d/a"; "d/b"; "d/c"])
    by (refine (bool_decide_unpack _ _); vm_compute; exact I).
  assert (Hc : "d/c" ∈ ["d/a"; "d/b"; "d/c"])
    by (refine (bool_decide_unpack _ _); vm_compute; exact I).
  assert (Hpos : (0 < 7)%Q) by reflexivity.
  split_and!; [exact Ha|exact Hc|reflexivity|reflexivity|exact Hpos|].
  exact (sin_fecha_no_conservado mundo_empate ["d/a"; "d/b"; "d/c"] "d/a" "d/c" 7%Q
           Ha Hc eq_refl eq_refl Hpos).
Defined.

(** ** Ties *)

(** C10: the kept path is the first member of the group that carries the
    greatest effective timestamp: every member before it is strictly
    older, every member after it is not newer.  The result depends on the
    world only through the list of (path, timestamp) pairs. *)
Theorem empate_primero (w : mundo) (rutas : list ruta) :
  rutas <> [] ->
  exists mas_reciente copias antes despues,
    valor (archivo_mas_reciente rutas w) = Ok (mas_reciente, copias) /\
    rutas = antes ++ mas_reciente :: despues /\
    Forall (fun r => (fecha_efectiva w r < fecha_efectiva w mas_reciente)%Q) antes /\
    Forall (fun r => (fecha_efectiva w r <= fecha_efectiva w mas_reciente)%Q) despues /\
    (forall w',
       valor (rutas_con_fechas rutas w') = valor (rutas_con_fechas rutas w) ->
       valor (archivo_mas_reciente rutas w')
       = valor (archivo_mas_reciente rutas w)).
Proof.
  intros Hne.
  destruct (archivo_mas_reciente_run w rutas Hne)
    as (k & r1 & r2 & Hrun & Hr & H1 & H2).
  exists k, (filter (fun r => r <> k) rutas), r1, r2. split_and!; try done.
  - by rewrite Hrun.
  - intros w'. rewrite !rutas_con_fechas_run. unfold valor. simpl.
    intros [= Heq]. unfold archivo_mas_reciente.
    rewrite (bind_Ok _ _ w' _ _ _ (rutas_con_fechas_run w' rutas)).
    rewrite (bind_Ok _ _ w _ _ _ (rutas_con_fechas_run w rutas)).
    simpl. rewrite Heq. by destruct rutas.
Qed.

Lemma empate_primero_witness :
  ["d/a"; "d/b"; "d/c"] <> [] /\
  exists mas_reciente copias antes despues,
    valor (archivo_mas_reciente ["d/a"; "d/b"; "d/c"] mundo_empate)
    = Ok (mas_reciente, copias) /\
    ["d/a"; "d/b"; "d/c"] = antes ++ mas_reciente :: despues /\
    Forall (fun r => (fecha_efectiva mundo_empate r
                      < fecha_efectiva mundo_empate mas_reciente)%Q) antes /\
    Forall (fun r => (fecha_efectiva mundo_empate r
                      <= fecha_efectiva mundo_empate mas_reciente)%Q) despues /\
    (forall w',
       valor (rutas_con_fechas ["d/a"; "d/b"; "d/c"] w')
       = valor (rutas_con_fechas ["d/a"; "d/b"; "d/c"] mundo_empate) ->
       valor (archivo_mas_reciente ["d/a"; "d/b"; "d/c"] w')
       = valor (archivo_mas_reciente ["d/a"; "d/b"; "d/c"] mundo_empate)).
Proof.
  split; [discriminate|].
  apply (empate_primero mundo_empate ["d/a"; "d/b"; "d/c"]). discriminate.
Defined.

(** On [mundo_empate] the two newest files tie and the first is kept. *)
Example empate_ejemplo :
  valor (archivo_mas_reciente ["d/a"; "d/b"; "d/c"] mundo_empate)
  = Ok ("d/b", ["d/a"; "d/c"]).
Proof. vm_compute. done. Qed.

(** ** The SHA-256 accumulator *)

Lemma absorber_S (n : nat) (h : list Z) (buf : list byte) :
  SHA256.absorber (S n) h buf
  = if (64 <=? length buf)%nat
    then SHA256.absorber n (SHA256.comprimir h (take 64 buf)) (drop 64 buf)
    else (h, buf).
Proof. reflexivity. Qed.

Lemma absorber_corto (n : nat) (h : list Z) (buf : list byte) :
  length buf < 64 -> SHA256.absorber n h buf = (h, buf).
Proof.
  intros H. destruct n as [|n]; [done|]. rewrite absorber_S.
  destruct (Nat.leb_spec 64 (length buf)); [lia|done].
Qed.

(** Past the number of complete blocks, the bound of [absorber] does not
    matter. *)
Lemma absorber_cota (n m : nat) (h : list Z) (buf : list byte) :
  length buf < 64 * S n -> length buf < 64 * S m ->
  SHA256.absorber n h buf = SHA256.absorber m h buf.
Proof.
  revert m h buf. induction n as [|n IH]; intros m h buf Hn Hm.
  - rewrite !absorber_corto; [done|lia|lia].
  - destruct (Nat.lt_ge_cases (length buf) 64) as [Hlt|Hle].
    + by rewrite !absorber_corto.
    + destruct m as [|m]; [lia|]. rewrite !absorber_S.
      destruct (Nat.leb_spec 64 (length buf)); [|lia].
      apply IH; rewrite length_drop; lia.
Qed.

Lemma absorber_app (n N M : nat) (h : list Z) (x y : list byte) :
  length x < 64 * S n ->
  length (x ++ y) < 64 * S N ->
  length ((SHA256.absorber n h x).2 ++ y) < 64 * S M ->
  SHA256.absorber N h (x ++ y)
  = SHA256.absorber M (SHA256.absorber n h x).1 ((SHA256.absorber n h x).2 ++ y).
Proof.
  revert N h x. induction n as [|n IH]; intros N h x Hn HN HM.
  - rewrite (absorber_corto _ h x) in HM |- * by lia. by apply absorber_cota.
  - destruct (Nat.lt_ge_cases (length x) 64) as [Hlt|Hle].
    + rewrite (absorber_corto _ h x) in HM |- * by lia. by apply absorber_cota.
    + rewrite (absorber_S _ h x) in HM |- *.
      destruct (Nat.leb_spec 64 (length x)); [|lia].
      rewrite length_app in HN. destruct N as [|N]; [lia|].
      rewrite absorber_S.
      destruct (Nat.leb_spec 64 (length (x ++ y))) as [_|Hlt];
        [|rewrite length_app in Hlt; lia].
      rewrite take_app_le, drop_app_le by lia.
      apply IH; [rewrite length_drop; lia| |done].
      rewrite length_app, length_drop. lia.
Qed.

(** Feeding two pieces one after the other is feeding their
    concatenation. *)
Lemma update_app (s : SHA256.t) (a b : list byte) :
  SHA256.update (SHA256.update s a) b = SHA256.update s (a ++ b).
Proof.
  unfold SHA256.update. simpl. f_equal; [| |by rewrite length_app, Nat.add_assoc].
  - rewrite (app_assoc _ a b). symmetry. f_equal. apply absorber_app; lia.
  - rewrite (app_assoc _ a b). symmetry. f_equal. apply absorber_app; lia.
Qed.

Lemma update_new_nil : SHA256.update SHA256.new [] = SHA256.new.
Proof. reflexivity. Qed.

Lemma length_comprimir (h : list Z) (b : list byte) :
  length h = 8 -> length (SHA256.comprimir h b) = 8.
Proof.
  intros H. unfold SHA256.comprimir. rewrite length_zip_with. simpl. lia.
Qed.

Lemma length_absorber (n : nat) (h : list Z) (buf : list byte) :
  length h = 8 -> length (SHA256.absorber n h buf).1 = 8.
Proof.
  revert h buf. induction n as [|n IH]; intros h buf H; [done|].
  rewrite absorber_S. destruct (64 <=? length buf)%nat; [|done].
  by apply IH, length_comprimir.
Qed.

Lemma length_update (s : SHA256.t) (a : list byte) :
  length (SHA256.estado s) = 8 -> length (SHA256.estado (SHA256.update s a)) = 8.
Proof. intros H. by apply length_absorber. Qed.

Lemma length_palabras_be (l : list Z) :
  length (concat (map (SHA256.palabra_be 4) l)) = 4 * length l.
Proof.
  induction l as [|x l IH]; [done|].
  simpl. simpl in IH. rewrite IH. lia.
Qed.

(** The digest has 32 bytes. *)
Lemma length_digest (s : SHA256.t) :
  length (SHA256.estado s) = 8 -> length (SHA256.digest s) = 32.
Proof.
  intros H. unfold SHA256.digest.
  rewrite length_palabras_be, length_absorber; done.
Qed.

Lemma length_sha256 (m : list byte) : length (SHA256.sha256 m) = 32.
Proof. apply length_digest, length_update. reflexivity. Qed.

(** Two characters per byte. *)
Lemma length_hex (bs : list byte) : String.length (SHA256.hex bs) = 2 * length bs.
Proof.
  induction bs as [|b bs IH]; [done|].
  simpl. rewrite IH. lia.
Qed.

Lemma de_hex_byte (b : byte) (s : string) :
  de_hex (SHA256.hex [b] +:+ s) = b :: de_hex s.
Proof. destruct b; reflexivity. Qed.

(** The hexadecimal text determines the bytes. *)
Lemma de_hex_hex (bs : list byte) : de_hex (SHA256.hex bs) = bs.
Proof.
  induction bs as [|b bs IH]; [done|].
  change (SHA256.hex (b :: bs)) with (SHA256.hex [b] +:+ SHA256.hex bs).
  by rewrite de_hex_byte, IH.
Qed.

Lemma hex_inj (a b : list byte) : SHA256.hex a = SHA256.hex b -> a = b.
Proof. intros H. by rewrite <- (de_hex_hex a), <- (de_hex_hex b), H. Qed.

Lemma hex_digitos (bs : list byte) :
  Forall (fun c => es_hex c = true) (String.list_ascii_of_string (SHA256.hex bs)).
Proof.
  induction bs as [|b bs IH]; [constructor|].
  simpl. constructor; [by destruct b|]. constructor; [by destruct b|]. done.
Qed.

(** ** [obtener_hash] *)

Lemma techo_0 : techo 0 = 0.
Proof. reflexivity. Qed.

Lemma techo_pos (n : nat) : 0 < n -> techo n = S (techo (n - 4096)).
Proof.
  intros H. unfold techo.
  destruct (Nat.lt_ge_cases n 4096) as [Hlt|Hge].
  - replace (n - 4096) with 0 by lia.
    rewrite (Nat.div_small 4095) by lia.
    assert (H1 : 4096 * 1 <= n + 4095) by lia.
    assert (H2 : n + 4095 < 4096 * 2) by lia.
    apply Nat.div_le_lower_bound in H1; [|lia].
    apply Nat.Div0.div_lt_upper_bound in H2. lia.
  - replace (n + 4095) with ((n - 4096 + 4095) + 1 * 4096) by lia.
    rewrite Nat.div_add by lia. lia.
Qed.

Lemma leer_bloques_S (n : nat) (h : manejador) (sha : SHA256.t) :
  leer_bloques (S n) h sha
  = (lectura <- read h 4096 ;;
     if bool_decide (lectura.1 = []) then ret sha
     else leer_bloques n lectura.2 (SHA256.update sha lectura.1)).
Proof. reflexivity. Qed.

(** The loop feeds the whole content when no read raises. *)
Lemma leer_bloques_Ok (n : nat) (c : list byte) (i : nat) (f : option nat)
    (s : SHA256.t) (x : list byte) (w : mundo) :
  length c < n ->
  (forall k, f = Some k -> k < i \/ i + techo (length c) < k) ->
  leer_bloques n {| resto := c; lecturas := i; fallo := f |} (SHA256.update s x) w
  = (Ok (SHA256.update s (x ++ c)), w, []).
Proof.
  revert c i x. induction n as [|n IH]; intros c i x Hn Hf; [lia|].
  rewrite leer_bloques_S. unfold read. simpl.
  rewrite bool_decide_eq_false_2; last first.
  { intros Hk. destruct (Hf i Hk); lia. }
  rewrite bind_ret. simpl.
  destruct c as [|b c].
  - simpl. by rewrite app_nil_r.
  - rewrite bool_decide_eq_false_2 by done.
    rewrite update_app.
    rewrite IH.
    + by rewrite <- app_assoc, take_drop.
    + rewrite length_drop. simpl in *. lia.
    + intros k Hk. rewrite length_drop.
      rewrite (techo_pos (length (b :: c))) in Hf by (simpl; lia).
      destruct (Hf k Hk); lia.
Qed.

(** It raises when a read within the file's span does. *)
Lemma leer_bloques_Lanza (n : nat) (c : list byte) (i k : nat)
    (s : SHA256.t) (w : mundo) :
  length c < n ->
  i <= k <= i + techo (length c) ->
  leer_bloques n {| resto := c; lecturas := i; fallo := Some k |} s w
  = (Lanza OSError, w, []).
Proof.
  revert c i s. induction n as [|n IH]; intros c i s Hn Hk; [lia|].
  rewrite leer_bloques_S. unfold read. simpl.
  destruct (decide (k = i)) as [->|Hne].
  - by rewrite bool_decide_eq_true_2.
  - rewrite bool_decide_eq_false_2 by congruence.
    rewrite bind_ret. simpl.
    destruct c as [|b c]; [simpl in Hk; rewrite techo_0 in Hk; lia|].
    rewrite bool_decide_eq_false_2 by done.
    apply IH.
    + rewrite length_drop. simpl in *. lia.
    + rewrite length_drop.
      rewrite (techo_pos (length (b :: c))) in Hk by (simpl; lia). lia.
Qed.

#[local] Arguments leer_bloques : simpl never.

(** What [obtener_hash] does on any path of any world. *)
Lemma obtener_hash_run (w : mundo) (r : ruta) :
  obtener_hash r w
  = (Ok (huella w r), w,
     Abre r :: match huella w r with
               | Some _ => []
               | None => [Imprime (MsgNoSePudoLeer r OSError)]
               end).
Proof.
  unfold obtener_hash, huella, legible, lectura_falla, bind, intentar, open_rb.
  destruct (archivos w !! r) as [a|]; [|done].
  destruct (abrible a); [|done]. simpl.
  destruct (falla_lectura a) as [k|] eqn:Hf.
  - case_bool_decide as Hk.
    + rewrite leer_bloques_Lanza by lia. done.
    + rewrite <- update_new_nil at 1.
      rewrite leer_bloques_Ok; [done|lia|].
      intros k' [= <-]. right. lia.
  - rewrite <- update_new_nil at 1.
    rewrite leer_bloques_Ok; [done|lia|done].
Qed.

(** The claim of C3 on the return value fails: what [obtener_hash]
    returns for a file holding [abc] is a text of 64 characters. *)
Lemma huella_no_es_de_32 :
  exists h,
    valor (obtener_hash "d/a" mundo_abc) = Ok (Some h) /\
    h = "ba7816bf8f01cfea414140de5dae2223b00361a396177a9cb410ff61f20015ad" /\
    String.length h <> 32.
Proof. eexists. split_and!; [vm_compute; reflexivity|reflexivity|by vm_compute]. Qed.

(** C3, amended: for a file that can be opened and read to its end,
    [obtener_hash] returns the 64 hexadecimal digits of the 32-byte
    SHA-256 digest of the whole content, the same as feeding the content
    at once; two such files with the same bytes get the same digest, and
    two digests are equal exactly when the SHA-256 digests of the two
    contents are. *)
Theorem huella_del_contenido (w : mundo) (r1 r2 : ruta) (a1 a2 : archivo) :
  archivos w !! r1 = Some a1 -> archivos w !! r2 = Some a2 ->
  legible a1 = true -> legible a2 = true ->
  exists h1 h2,
    valor (obtener_hash r1 w) = Ok (Some h1) /\
    valor (obtener_hash r2 w) = Ok (Some h2) /\
    h1 = SHA256.hexdigest (SHA256.update SHA256.new (contenido a1)) /\
    String.length h1 = 64 /\
    Forall (fun c => es_hex c = true) (String.list_ascii_of_string h1) /\
    de_hex h1 = SHA256.sha256 (contenido a1) /\
    length (SHA256.sha256 (contenido a1)) = 32 /\
    (contenido a1 = contenido a2 -> h1 = h2) /\
    (h1 = h2 <-> SHA256.sha256 (contenido a1) = SHA256.sha256 (contenido a2)).
Proof.
  intros H1 H2 L1 L2.
  exists (SHA256.hex (SHA256.sha256 (contenido a1))),
         (SHA256.hex (SHA256.sha256 (contenido a2))).
  rewrite !obtener_hash_run. unfold huella. rewrite H1, H2, L1, L2.
  split_and!; try done.
  - by rewrite length_hex, length_sha256.
  - apply hex_digitos.
  - apply de_hex_hex.
  - apply length_sha256.
  - by intros ->.
  - split; [apply hex_inj|by intros ->].
Qed.

Lemma huella_del_contenido_witness :
  archivos mundo_abc !! "d/a" = Some (fichero "abc" (Some 1%Q)) /\
  archivos mundo_abc !! "d/b" = Some (fichero "abc" (Some 2%Q)) /\
  legible (fichero "abc" (Some 1%Q)) = true /\
  legible (fichero "abc" (Some 2%Q)) = true /\
  exists h1 h2,
    valor (obtener_hash "d/a" mundo_abc) = Ok (Some h1) /\
    valor (obtener_hash "d/b" mundo_abc) = Ok (Some h2) /\
    h1 = SHA256.hexdigest (SHA256.update SHA256.new (bytes_de "abc")) /\
    String.length h1 = 64 /\
    Forall (fun c => es_hex c = true) (String.list_ascii_of_string h1) /\
    de_hex h1 = SHA256.sha256 (bytes_de "abc") /\
    length (SHA256.sha256 (bytes_de "abc")) = 32 /\
    (bytes_de "abc" = bytes_de "abc" -> h1 = h2) /\
    (h1 = h2 <-> SHA256.sha256 (bytes_de "abc") = SHA256.sha256 (bytes_de "abc")).
Proof.
  split_and!; [by vm_compute|by vm_compute|reflexivity|reflexivity|].
  apply (huella_del_contenido mundo_abc "d/a" "d/b"
           (fichero "abc" (Some 1%Q)) (fichero "abc" (Some 2%Q)));
    [by vm_compute|by vm_compute|reflexivity|reflexivity].
Defined.

(** A file of 5000 bytes is read in two blocks and a last empty one. *)
Example huella_dos_bloques :
  let a := {| contenido := replicate 5000 "a"%byte; abrible := true;
              falla_lectura := Some 3; fecha := None; borrable := true |} in
  valor (obtener_hash "d/g" (mundo_de [("d/g", a)] ["g"] []))
  = Ok (Some "c526c6222044dab5674de9c4ac7f4566ebb5e4d8bf9d8ea34c9cc8a7cc3c869c").
Proof. vm_compute. reflexivity. Qed.

(** ** Loops that only read the world *)

Lemma borrados_app (t1 t2 : list evento) :
  borrados (t1 ++ t2) = borrados t1 ++ borrados t2.
Proof. apply omap_app. Qed.

Lemma abiertos_app (t1 t2 : list evento) :
  abiertos (t1 ++ t2) = abiertos t1 ++ abiertos t2.
Proof. apply omap_app. Qed.

(** A loop whose body returns, leaves the world as it is and removes
    nothing, does so as a whole, and an invariant of the body indexed by
    the items already seen holds at the end for all of them. *)
Lemma para_cada_lector {A S} (I : list A -> S -> Prop)
    (cuerpo : A -> S -> M S) (w : mundo) (l : list A) :
  (forall pre x s, I pre s ->
     exists s' t, cuerpo x s w = (Ok s', w, t) /\ I (pre ++ [x]) s' /\
                  borrados t = []) ->
  forall pre s, I pre s ->
    exists s' t, para_cada l cuerpo s w = (Ok s', w, t) /\ I (pre ++ l) s' /\
                 borrados t = [].
Proof.
  intros Hc. induction l as [|x l IH]; intros pre s HI.
  - exists s, []. by rewrite app_nil_r.
  - destruct (Hc pre x s HI) as (s1 & t1 & Hx & HI1 & Ht1).
    destruct (IH (pre ++ [x]) s1 HI1) as (s2 & t2 & Hl & HI2 & Ht2).
    exists s2, (t1 ++ t2). simpl. rewrite (bind_Ok _ _ _ _ _ _ Hx), Hl. simpl.
    split_and!; [done| |].
    + by rewrite <- app_assoc in HI2.
    + by rewrite borrados_app, Ht1, Ht2.
Qed.

(** ** The dictionary *)

Lemma dict_get_set (j k : string) (v : list string) (d : dict) :
  dict_get j (dict_set k v d) = if decide (j = k) then Some v else dict_get j d.
Proof.
  induction d as [|[k' v'] d IH]; simpl.
  - by destruct (decide (j = k)).
  - destruct (decide (k = k')) as [->|Hkk']; simpl.
    + by destruct (decide (j = k')).
    + destruct (decide (j = k')) as [->|Hjk'].
      * by rewrite decide_False by congruence.
      * done.
Qed.

Lemma dict_in_get (k : string) (d : dict) :
  dict_in k d = true <-> dict_get k d <> None.
Proof.
  unfold dict_in. rewrite bool_decide_eq_true.
  induction d as [|[k' v'] d IH]; simpl.
  - rewrite elem_of_nil. tauto.
  - rewrite elem_of_cons. destruct (decide (k = k')) as [->|Hne].
    + split; [done|]. intros _. by left.
    + rewrite <- IH. split; [|by right]. by intros [?|?].
Qed.

Lemma dict_set_claves (k : string) (v : list string) (d : dict) :
  (dict_set k v d).*1 = if dict_in k d then d.*1 else d.*1 ++ [k].
Proof.
  unfold dict_in. induction d as [|[k' v'] d IH]; csimpl.
  - done.
  - destruct (decide (k = k')) as [->|Hne]; csimpl.
    + rewrite bool_decide_eq_true_2; [done|]. left.
    + rewrite IH. case_bool_decide as H1; case_bool_decide as H2; try done.
      * exfalso. apply H2. by right.
      * apply elem_of_cons in H2 as [?|?]; done.
Qed.

Lemma dict_set_NoDup (k : string) (v : list string) (d : dict) :
  NoDup d.*1 -> NoDup (dict_set k v d).*1.
Proof.
  intros Hnd. rewrite dict_set_claves. unfold dict_in.
  case_bool_decide as Hk; [done|].
  apply NoDup_app. split_and!; [done| |apply NoDup_singleton].
  intros x Hx Hx'. apply list_elem_of_singleton in Hx'. by subst.
Qed.

Lemma dict_get_elem_of (k : string) (v : list string) (d : dict) :
  NoDup d.*1 -> ((k, v) ∈ d <-> dict_get k d = Some v).
Proof.
  induction d as [|[k' v'] d IH]; simpl; intros Hnd.
  - rewrite elem_of_nil. naive_solver.
  - apply NoDup_cons in Hnd as [Hk' Hnd]. rewrite elem_of_cons.
    destruct (decide (k = k')) as [->|Hne].
    + split; [|intros [= ->]; by left]. intros [[= ->]|Hin]; [done|].
      exfalso. apply Hk'. apply list_elem_of_fmap. by exists (k', v).
    + rewrite <- IH by done. split; [|by right].
      intros [[= ? ?]|?]; [congruence|done].
Qed.

(** ** [buscar_duplicados] *)

Lemma grupo_snoc (w : mundo) (pre : list ruta) (p : ruta) (h : string) :
  grupo w (pre ++ [p]) h
  = grupo w pre h ++ (if decide (huella w p = Some h) then [p] else []).
Proof.
  unfold grupo. by rewrite filter_app.
Qed.

Lemma agrupado_nil (w : mundo) : agrupado w [] [].
Proof. split; [constructor|done]. Qed.

(** One file more: the dictionary follows. *)
Lemma registrar_run (w : mundo) (pre : list ruta) (actual nombre : string)
    (d : dict) :
  agrupado w pre d ->
  exists d' t,
    registrar actual nombre d w = (Ok d', w, t) /\
    agrupado w (pre ++ [os_path_join actual nombre]) d' /\
    borrados t = [].
Proof.
  intros [Hnd Hget]. unfold registrar.
  set (p := os_path_join actual nombre).
  rewrite (bind_Ok _ _ _ _ _ _ (obtener_hash_run w p)).
  destruct (huella w p) as [h|] eqn:Hp.
  - set (d1 := if dict_in h d then d else dict_set h [] d).
    assert (Hnd1 : NoDup d1.*1).
    { unfold d1. destruct (dict_in h d); [done|]. by apply dict_set_NoDup. }
    assert (Hd1 : forall j, dict_get j d1
                            = if decide (j = h) then Some (grupo w pre h)
                              else dict_get j d).
    { intros j. unfold d1. destruct (dict_in h d) eqn:Hin.
      - destruct (decide (j = h)) as [->|]; [|done].
        apply dict_in_get in Hin. rewrite Hget in Hin |- *.
        by destruct (decide (grupo w pre h = [])).
      - rewrite dict_get_set. destruct (decide (j = h)) as [->|]; [|done].
        assert (Hno : dict_get h d = None).
        { destruct (dict_get h d) eqn:E; [|done].
          assert (dict_in h d = true) by (apply dict_in_get; congruence).
          congruence. }
        rewrite Hget in Hno.
        destruct (decide (grupo w pre h = [])) as [->|]; done. }
    unfold dict_item. rewrite Hd1, decide_True by done. rewrite bind_ret.
    eexists _, _. split; [reflexivity|]. split; [|reflexivity].
    split; [by apply dict_set_NoDup|].
    intros j. rewrite dict_get_set, grupo_snoc.
    destruct (decide (j = h)) as [->|Hne].
    + rewrite (decide_True (P := huella w p = Some h)) by done.
      rewrite decide_False; [done|]. by intros [_ [=]]%app_eq_nil.
    + rewrite Hd1, decide_False by done.
      rewrite (decide_False (P := huella w p = Some j)) by congruence.
      rewrite app_nil_r. apply Hget.
  - eexists _, _. split; [reflexivity|]. split; [|reflexivity].
    split; [done|]. intros j. rewrite grupo_snoc.
    rewrite (decide_False (P := huella w p = Some j)) by congruence.
    rewrite app_nil_r. apply Hget.
Qed.

Lemma rutas_de_snoc (pasos : list paso_walk) (paso : paso_walk) :
  rutas_de (pasos ++ [paso])
  = rutas_de pasos ++ map (os_path_join paso.1.1) paso.2.
Proof. unfold rutas_de. rewrite flat_map_app. simpl. by rewrite app_nil_r. Qed.

(** The two nested loops fill the dictionary with the groups of the
    paths walked. *)
Lemma recorrer_run (w : mundo) (pasos : list paso_walk) :
  exists d t,
    para_cada pasos (fun paso duplicados =>
      para_cada paso.2 (fun nombre duplicados =>
        registrar paso.1.1 nombre duplicados) duplicados) [] w
    = (Ok d, w, t) /\
    agrupado w (rutas_de pasos) d /\ borrados t = [].
Proof.
  apply (para_cada_lector (fun pre d => agrupado w (rutas_de pre) d)
           _ w pasos) with (pre := []); [|apply agrupado_nil].
  intros pre paso d Hd. rewrite rutas_de_snoc.
  apply (para_cada_lector
           (fun noms d =>
              agrupado w (rutas_de pre ++ map (os_path_join paso.1.1) noms) d)
           _ w paso.2) with (pre := []).
  - intros noms nombre d' Hd'. rewrite map_app, app_assoc. simpl.
    by apply registrar_run.
  - simpl. by rewrite app_nil_r.
Qed.

(** What [buscar_duplicados] returns: the world is untouched, nothing is
    removed, the keys are distinct, and the entries are exactly the groups
    of two or more of the paths walked. *)
Lemma buscar_duplicados_run (w : mundo) (carpeta : ruta) :
  exists d t,
    buscar_duplicados carpeta w = (Ok d, w, t) /\
    NoDup d.*1 /\
    (forall h v, (h, v) ∈ d <->
       v = grupo w (rutas_recorridas w carpeta) h /\ 1 < length v) /\
    borrados t = [].
Proof.
  destruct (recorrer_run w (recorrido w carpeta)) as (d & t & Hrun & [Hnd Hget] & Ht).
  exists (filter (fun e => 1 < length e.2) d),
         (Imprime MsgEscaneando :: Recorre carpeta :: t
            ++ [Imprime MsgBusquedaCompletada]).
  split_and!.
  - unfold buscar_duplicados. rewrite bind_print.
    rewrite (bind_Ok _ _ w (recorrido w carpeta) w [Recorre carpeta]) by done.
    rewrite (bind_Ok _ _ _ _ _ _ Hrun), bind_print. done.
  - apply (NoDup_fmap_fst); [|by apply NoDup_filter, NoDup_fmap_1 with (f := fst)].
    intros k v1 v2 [_ H1]%list_elem_of_filter [_ H2]%list_elem_of_filter.
    apply dict_get_elem_of in H1, H2; try done. congruence.
  - intros h v. rewrite list_elem_of_filter, dict_get_elem_of by done.
    rewrite Hget. simpl. fold (rutas_recorridas w carpeta).
    destruct (decide (grupo w (rutas_recorridas w carpeta) h = [])) as [He|Hne].
    + rewrite He. split; [by intros [_ [=]]|]. intros [-> Hl]. simpl in Hl. lia.
    + split; [by intros [? [= <-]]|by intros [-> ?]].
  - simpl. rewrite borrados_app, Ht. done.
Qed.

Lemma no_se_puede_leer_huella (w : mundo) (r : ruta) :
  no_se_puede_leer w r <-> huella w r = None.
Proof.
  unfold no_se_puede_leer, huella, legible, lectura_falla.
  destruct (archivos w !! r) as [a|]; [|done].
  destruct (abrible a); simpl.
  - destruct (falla_lectura a) as [k|]; simpl.
    + case_bool_decide as Hk; simpl.
      * split; [done|]. intros _. right. by exists k.
      * split; [|done]. intros [[=]|(k' & [= <-] & Hk')]. lia.
    + split; [|done]. by intros [[=]|(k' & [=] & _)].
  - split; [done|]. intros _. by left.
Qed.

Lemma obtener_hash_valor (w : mundo) (r : ruta) :
  valor (obtener_hash r w) = Ok (huella w r).
Proof. by rewrite obtener_hash_run. Qed.

(** C5: for a path that cannot be opened, or on which a read raises,
    [obtener_hash] returns [None], not a digest (in particular not the
    digest of the empty content), and the path is in no group that
    [buscar_duplicados] returns, whatever the folder walked. *)
Theorem ilegible_excluido (w : mundo) (carpeta r : ruta) :
  no_se_puede_leer w r ->
  valor (obtener_hash r w) = Ok None /\
  valor (obtener_hash r w) <> Ok (Some (SHA256.hexdigest SHA256.new)) /\
  exists d,
    valor (buscar_duplicados carpeta w) = Ok d /\
    forall h rutas, (h, rutas) ∈ d -> r ∉ rutas.
Proof.
  intros Hr%no_se_puede_leer_huella.
  rewrite obtener_hash_valor, Hr. split_and!; [done|done|].
  destruct (buscar_duplicados_run w carpeta) as (d & t & Hrun & _ & Hd & _).
  exists d. rewrite Hrun. split; [done|].
  intros h rutas [-> _]%Hd [Hh _]%list_elem_of_filter. congruence.
Qed.

Lemma ilegible_excluido_witness :
  no_se_puede_leer mundo_abc "d/f" /\
  valor (obtener_hash "d/f" mundo_abc) = Ok None /\
  valor (obtener_hash "d/f" mundo_abc) <> Ok (Some (SHA256.hexdigest SHA256.new)) /\
  exists d,
    valor (buscar_duplicados "d" mundo_abc) = Ok d /\
    forall h rutas, (h, rutas) ∈ d -> "d/f" ∉ rutas.
Proof.
  assert (H : no_se_puede_leer mundo_abc "d/f").
  { right. exists 1. split; [reflexivity|]. vm_compute. lia. }
  split; [exact H|]. exact (ilegible_excluido mundo_abc "d" "d/f" H).
Defined.

(** In [mundo_abc] the files [e] and [f] hold the same bytes as [a] and
    [b] but cannot be read: the group is [a], [b]. *)
Example buscar_duplicados_abc :
  valor (buscar_duplicados "d" mundo_abc)
  = Ok [("ba7816bf8f01cfea414140de5dae2223b00361a396177a9cb410ff61f20015ad",
         ["d/a"; "d/b"])].
Proof. vm_compute. reflexivity. Qed.

(** Two entries of a list pass a filter that keeps more than one. *)
Lemma filter_dos {A} (P : A -> Prop) `{!forall x, Decision (P x)} (l : list A) :
  1 < length (filter P l) ->
  exists i j p q, i <> j /\ l !! i = Some p /\ l !! j = Some q /\ P p /\ P q.
Proof.
  induction l as [|x l IH]; simpl; [lia|].
  rewrite filter_cons. destruct (decide (P x)) as [Hx|Hx]; simpl; intros Hl.
  - destruct (filter P l) as [|y l'] eqn:E; [simpl in Hl; lia|].
    assert (Hy : y ∈ filter P l) by (rewrite E; left).
    apply list_elem_of_filter in Hy as [Hy [j Hj]%list_elem_of_lookup].
    exists 0, (S j), x, y. done.
  - destruct (IH Hl) as (i & j & p & q & Hij & Hi & Hj & Hp & Hq).
    exists (S i), (S j), p, q. split_and!; try done. lia.
Qed.

(** C6: every group [buscar_duplicados] returns has at least two paths,
    each of them with the digest that is the key of the group; and the
    result is the empty mapping when no two entries of the walk have the
    same digest. *)
Theorem grupos_de_dos_o_mas (w : mundo) (carpeta : ruta) :
  exists d,
    valor (buscar_duplicados carpeta w) = Ok d /\
    (forall h rutas, (h, rutas) ∈ d ->
       2 <= length rutas /\
       forall p, p ∈ rutas -> valor (obtener_hash p w) = Ok (Some h)) /\
    (sin_repetidos w (rutas_recorridas w carpeta) -> d = []).
Proof.
  destruct (buscar_duplicados_run w carpeta) as (d & t & Hrun & _ & Hd & _).
  exists d. rewrite Hrun. split_and!; [done| |].
  - intros h rutas [-> Hl]%Hd. split; [lia|].
    intros p [Hp _]%list_elem_of_filter. by rewrite obtener_hash_valor, Hp.
  - intros Hsin. destruct d as [|[h v] d]; [done|]. exfalso.
    assert (Hin : (h, v) ∈ (h, v) :: d) by left.
    apply Hd in Hin as [-> Hl].
    apply filter_dos in Hl as (i & j & p & q & Hij & Hi & Hj & Hp & Hq).
    apply (Hsin i j p q h Hij Hi Hj); by rewrite obtener_hash_valor, ?Hp, ?Hq.
Qed.

(** On a folder whose three files differ, the result is empty. *)
Example buscar_duplicados_sin_repetidos :
  valor (buscar_duplicados "d"
           (mundo_de [("d/a", fichero "x" None); ("d/b", fichero "y" None);
                      ("d/c", fichero "z" None)] ["a"; "b"; "c"] []))
  = Ok [].
Proof. vm_compute. reflexivity. Qed.

(** And on an empty folder. *)
Example buscar_duplicados_vacia :
  valor (buscar_duplicados "d" (mundo_de [] [] [])) = Ok [].
Proof. vm_compute. reflexivity. Qed.

(** ** Determinism of the grouping *)

Lemma huella_archivos (w w' : mundo) (r : ruta) :
  archivos w' = archivos w -> huella w' r = huella w r.
Proof. intros H. unfold huella. by rewrite H. Qed.

Lemma grupo_Permutation (w w' : mundo) (l l' : list ruta) (h : string) :
  archivos w' = archivos w -> l' ≡ₚ l -> grupo w' l' h ≡ₚ grupo w l h.
Proof.
  intros Ha Hl. unfold grupo. rewrite Hl.
  erewrite list_filter_iff; [done|].
  intros p. by rewrite (huella_archivos w w').
Qed.

(** C9: [buscar_duplicados] leaves the world as it found it, so a second
    run right after the first returns the same mapping; and on a world
    with the same files whose walk visits the same paths in another
    order, it returns the same digests, each with the same members up to
    their order. *)
Theorem agrupar_determinista (w w' : mundo) (carpeta : ruta) :
  archivos w' = archivos w ->
  rutas_recorridas w' carpeta ≡ₚ rutas_recorridas w carpeta ->
  exists d d',
    valor (buscar_duplicados carpeta w) = Ok d /\
    final (buscar_duplicados carpeta w) = w /\
    valor (buscar_duplicados carpeta (final (buscar_duplicados carpeta w)))
    = Ok d /\
    valor (buscar_duplicados carpeta w') = Ok d' /\
    (forall h rutas, (h, rutas) ∈ d ->
       exists rutas', (h, rutas') ∈ d' /\ rutas' ≡ₚ rutas) /\
    (forall h rutas', (h, rutas') ∈ d' ->
       exists rutas, (h, rutas) ∈ d /\ rutas' ≡ₚ rutas).
Proof.
  intros Ha Hp.
  destruct (buscar_duplicados_run w carpeta) as (d & t & Hrun & _ & Hd & _).
  destruct (buscar_duplicados_run w' carpeta) as (d' & t' & Hrun' & _ & Hd' & _).
  exists d, d'. rewrite Hrun. unfold final, valor. simpl.
  rewrite Hrun, Hrun'. simpl. split_and!; try done.
  - intros h rutas [-> Hl]%Hd.
    assert (Hg := grupo_Permutation w w' _ _ h Ha Hp).
    exists (grupo w' (rutas_recorridas w' carpeta) h). split; [|done].
    apply Hd'. split; [done|]. by rewrite Hg.
  - intros h rutas' [-> Hl]%Hd'.
    assert (Hg := grupo_Permutation w w' _ _ h Ha Hp).
    exists (grupo w (rutas_recorridas w carpeta) h). split; [|done].
    apply Hd. split; [done|]. by rewrite <- Hg.
Qed.

Lemma agrupar_determinista_witness :
  archivos mundo_abc_al_reves = archivos mundo_abc /\
  rutas_recorridas mundo_abc_al_reves "d" ≡ₚ rutas_recorridas mundo_abc "d" /\
  exists d d',
    valor (buscar_duplicados "d" mundo_abc) = Ok d /\
    final (buscar_duplicados "d" mundo_abc) = mundo_abc /\
    valor (buscar_duplicados "d" (final (buscar_duplicados "d" mundo_abc)))
    = Ok d /\
    valor (buscar_duplicados "d" mundo_abc_al_reves) = Ok d' /\
    (forall h rutas, (h, rutas) ∈ d ->
       exists rutas', (h, rutas') ∈ d' /\ rutas' ≡ₚ rutas) /\
    (forall h rutas', (h, rutas') ∈ d' ->
       exists rutas, (h, rutas) ∈ d /\ rutas' ≡ₚ rutas).
Proof.
  assert (Hp : rutas_recorridas mundo_abc_al_reves "d"
               ≡ₚ rutas_recorridas mundo_abc "d").
  { change (reverse (rutas_recorridas mundo_abc "d")
            ≡ₚ rutas_recorridas mundo_abc "d").
    apply reverse_Permutation. }
  split; [reflexivity|]. split; [exact Hp|].
  exact (agrupar_determinista mundo_abc mundo_abc_al_reves "d" eq_refl Hp).
Defined.

(** Walked in the opposite order, the group lists its members in the
    opposite order. *)
Example buscar_duplicados_al_reves :
  valor (buscar_duplicados "d" mundo_abc_al_reves)
  = Ok [("ba7816bf8f01cfea414140de5dae2223b00361a396177a9cb410ff61f20015ad",
         ["d/b"; "d/a"])].
Proof. vm_compute. reflexivity. Qed.

(** ** [eliminar_duplicados] *)

Lemma resultados_app (t1 t2 : list evento) :
  resultados (t1 ++ t2) = resultados t1 ++ resultados t2.
Proof. apply omap_app. Qed.

Lemma eliminados_app (t1 t2 : list evento) :
  eliminados (t1 ++ t2) = eliminados t1 ++ eliminados t2.
Proof. unfold eliminados. by rewrite resultados_app, filter_app, fmap_app. Qed.

Lemma sin_rutas_app (m : gmap string archivo) (a b : list ruta) :
  sin_rutas m (a ++ b) = sin_rutas (sin_rutas m a) b.
Proof. apply fold_left_app. Qed.

(** One removal: it succeeds, the file is gone and the count grows by
    one; or it raises, the world and the count stay, and the error is
    reported.  Either way the run goes on. *)
Lemma eliminar_copia_run (w : mundo) (copia : ruta) (total : nat) :
  exists w' (ok : bool),
    eliminar_copia copia total w
    = (Ok (total + (if ok then 1 else 0)), w',
       [Borra copia;
        Imprime (if ok then MsgEliminado copia
                 else MsgErrorAlEliminar copia OSError)]) /\
    size (archivos w') + (if ok then 1 else 0) = size (archivos w) /\
    (if ok then is_Some (archivos w !! copia) /\
                archivos w' = delete copia (archivos w)
     else w' = w).
Proof.
  unfold eliminar_copia, intentar, bind, os_remove.
  destruct (archivos w !! copia) as [a|] eqn:Ha.
  - destruct (borrable a).
    + eexists _, true. simpl. split; [reflexivity|].
      split; [|split; [by eexists|done]]. simpl.
      rewrite map_size_delete_Some by (by rewrite Ha).
      assert (size (archivos w) <> 0); [|lia].
      intros H0%map_size_empty_inv. by rewrite H0 in Ha.
    + exists w, false. simpl. rewrite Nat.add_0_r. done.
  - exists w, false. simpl. rewrite Nat.add_0_r. done.
Qed.

(** The loop over the copies of one group attempts every one of them, in
    order, reports each attempt, and counts the removals that succeeded. *)
Lemma eliminar_copias_run (copias : list ruta) (w : mundo) (total : nat) :
  exists w' t,
    para_cada copias eliminar_copia total w
    = (Ok (total + length (eliminados t)), w', t) /\
    borrados t = copias /\
    (resultados t).*1 = copias /\
    rutas_impresas t = [] /\
    grupos_anunciados t = [] /\
    size (archivos w') + length (eliminados t) = size (archivos w) /\
    archivos w' = sin_rutas (archivos w) (eliminados t).
Proof.
  revert w total. induction copias as [|c copias IH]; intros w total.
  - exists w, []. simpl. by rewrite Nat.add_0_r.
  - destruct (eliminar_copia_run w c total) as (w1 & ok & Hc & Hs & Hw1).
    destruct (IH w1 (total + (if ok then 1 else 0)))
      as (w2 & t2 & Hl & Hb & Hr & Hi & Hg & Hs2 & Hw2).
    set (t1 := [Borra c;
                Imprime (if ok then MsgEliminado c
                         else MsgErrorAlEliminar c OSError)]) in *.
    assert (He : length (eliminados t1) = if ok then 1 else 0)
      by (by destruct ok).
    exists w2, (t1 ++ t2). cbn [para_cada].
    rewrite (bind_Ok _ _ _ _ _ _ Hc), Hl. cbn [fst snd].
    rewrite eliminados_app, length_app, He.
    split_and!.
    + by rewrite Nat.add_assoc.
    + by rewrite borrados_app, Hb.
    + rewrite resultados_app, fmap_app, Hr. by destruct ok.
    + unfold rutas_impresas in *. rewrite omap_app, Hi. by destruct ok.
    + unfold grupos_anunciados in *. rewrite omap_app, Hg. by destruct ok.
    + lia.
    + rewrite sin_rutas_app, Hw2. destruct ok; simpl.
      * destruct Hw1 as [_ ->]. done.
      * by subst w1.
Qed.

(** The listing loop prints every copy and does nothing else. *)
Lemma listar_copias_run (copias : list ruta) (w : mundo) :
  para_cada copias (fun copia _ => print (MsgRuta copia)) tt w
  = (Ok tt, w, map (fun c => Imprime (MsgRuta c)) copias).
Proof.
  induction copias as [|c copias IH]; [done|].
  cbn [para_cada]. rewrite bind_print, IH. done.
Qed.

Lemma omap_consultas {B} (f : evento -> option B) (l : list ruta) :
  (forall r, f (Consulta r) = None) -> omap f (map Consulta l) = [].
Proof. intros H. induction l as [|r l IH]; [done|]. simpl. by rewrite H. Qed.

Lemma rutas_impresas_listado (l : list ruta) :
  rutas_impresas (map (fun c => Imprime (MsgRuta c)) l) = l.
Proof. induction l as [|r l IH]; [done|]. simpl. by rewrite IH. Qed.

Lemma omap_listado {B} (f : evento -> option B) (l : list ruta) :
  (forall r, f (Imprime (MsgRuta r)) = None) ->
  omap f (map (fun c => Imprime (MsgRuta c)) l) = [].
Proof. intros H. induction l as [|r l IH]; [done|]. simpl. by rewrite H. Qed.

Lemma omap_traza_grupo {B} (f : evento -> option B) (numero : nat)
    (rutas : list ruta) (k : ruta) (t : list evento) :
  (forall r, f (Consulta r) = None) ->
  f (Imprime MsgSeConservara) = None ->
  f (Imprime MsgSeEliminaran) = None ->
  f (Imprime MsgLineaEnBlanco) = None ->
  omap f (traza_grupo numero rutas k t)
  = option_list (f (Imprime (MsgGrupo numero)))
    ++ option_list (f (Imprime (MsgRuta k)))
    ++ omap f (map (fun c => Imprime (MsgRuta c)) (filter (fun r => r <> k) rutas))
    ++ omap f t.
Proof.
  intros Hc H1 H2 H3. unfold traza_grupo.
  assert (Hcons : forall x l, omap f (x :: l) = option_list (f x) ++ omap f l).
  { intros x l. simpl. by destruct (f x). }
  rewrite Hcons, omap_app, omap_consultas by done.
  rewrite !Hcons, !omap_app, H1, H2. simpl. rewrite H3. simpl.
  by rewrite app_nil_r.
Qed.

(** One group: whatever happens to the removals, the body returns and
    the group number moves on. *)
Lemma eliminar_grupo_run (g : string * list ruta) (total numero : nat) (w : mundo) :
  g.2 <> [] ->
  exists w' seg,
    eliminar_grupo g (total, numero) w
    = (Ok (total + length (eliminados seg), numero + 1), w', seg) /\
    grupo_procesado g seg /\
    grupos_anunciados seg = [numero] /\
    size (archivos w') + length (eliminados seg) = size (archivos w) /\
    archivos w' = sin_rutas (archivos w) (eliminados seg).
Proof.
  intros Hne.
  destruct (archivo_mas_reciente_run w g.2 Hne) as (k & r1 & r2 & Hamr & Hr & _).
  destruct (eliminar_copias_run (filter (fun r => r <> k) g.2) w total)
    as (w' & t & Hdel & Hb & Hres & Hi & Hg & Hs & Hw).
  assert (Hres' : resultados (traza_grupo numero g.2 k t) = resultados t).
  { unfold resultados. rewrite omap_traza_grupo by done. simpl.
    by rewrite omap_listado. }
  assert (Hel : eliminados (traza_grupo numero g.2 k t) = eliminados t).
  { unfold eliminados. by rewrite Hres'. }
  assert (Hb' : borrados (traza_grupo numero g.2 k t)
                = filter (fun r => r <> k) g.2).
  { unfold borrados. rewrite omap_traza_grupo by done. simpl.
    by rewrite omap_listado. }
  exists w', (traza_grupo numero g.2 k t). rewrite Hel. split_and!; try done.
  - unfold eliminar_grupo. cbn [fst snd]. rewrite bind_print.
    rewrite (bind_Ok _ _ _ _ _ _ Hamr). cbn [fst snd].
    rewrite !bind_print.
    rewrite (bind_Ok _ _ _ _ _ _ (listar_copias_run _ w)). cbn [fst snd].
    rewrite (bind_Ok _ _ _ _ _ _ Hdel). cbn [fst snd].
    rewrite bind_print. done.
  - exists k. rewrite Hb', Hres'. split_and!; try done.
    + rewrite Hr. set_solver.
    + unfold rutas_impresas. rewrite omap_traza_grupo by done. simpl.
      fold (rutas_impresas t). rewrite Hi, app_nil_r.
      f_equal. apply rutas_impresas_listado.
  - unfold grupos_anunciados. rewrite omap_traza_grupo by done. simpl.
    fold (grupos_anunciados t). by rewrite Hg, omap_listado.
Qed.

(** The loop over the groups goes through all of them. *)
Lemma eliminar_grupos_run (d : dict) (total numero : nat) (w : mundo) :
  Forall (fun g => g.2 <> []) d ->
  exists w' segs,
    para_cada d eliminar_grupo (total, numero) w
    = (Ok (total + length (eliminados (concat segs)), numero + length d),
       w', concat segs) /\
    Forall2 grupo_procesado d segs /\
    grupos_anunciados (concat segs) = seq numero (length d) /\
    size (archivos w') + length (eliminados (concat segs)) = size (archivos w) /\
    archivos w' = sin_rutas (archivos w) (eliminados (concat segs)).
Proof.
  intros Hd. revert total numero w.
  induction Hd as [|g d Hg _ IH]; intros total numero w.
  - exists w, []. simpl. by rewrite !Nat.add_0_r.
  - destruct (eliminar_grupo_run g total numero w Hg)
      as (w1 & seg & Hrun & Hproc & Hnum & Hs1 & Hw1).
    destruct (IH (total + length (eliminados seg)) (numero + 1) w1)
      as (w2 & segs & Hruns & Hprocs & Hnums & Hs2 & Hw2).
    exists w2, (seg :: segs). cbn [para_cada concat length].
    rewrite (bind_Ok _ _ _ _ _ _ Hrun), Hruns. cbn [fst snd].
    rewrite eliminados_app, length_app. split_and!.
    + f_equal. f_equal. f_equal. f_equal; lia.
    + by constructor.
    + unfold grupos_anunciados in *. rewrite omap_app, Hnum, Hnums.
      simpl. by rewrite Nat.add_1_r.
    + lia.
    + by rewrite sin_rutas_app, <- Hw1.
Qed.

(** C4: on groups that are not empty [eliminar_duplicados] returns
    normally whatever removals fail.  Its trace is one segment per group,
    in which every member but the kept one is listed and then attempted,
    in order, and every attempt is reported, as removed or as an error;
    all the groups are announced.  The total printed at the end is the
    number of attempts reported as removed, which is the number of files
    that left the file table, and the file table at the end is the one at
    the start without the paths reported as removed. *)
Theorem eliminar_con_fallos (w : mundo) (d : dict) :
  Forall (fun g => g.2 <> []) d ->
  exists w' segs total,
    eliminar_duplicados d w
    = (Ok tt, w', concat segs ++ [Imprime (MsgProcesoCompletado total)]) /\
    Forall2 grupo_procesado d segs /\
    grupos_anunciados (concat segs) = seq 1 (length d) /\
    total = length (eliminados (concat segs)) /\
    total = length (filter (fun x => x.2 = true) (resultados (concat segs))) /\
    length (resultados (concat segs)) = length (borrados (concat segs)) /\
    size (archivos w') + total = size (archivos w) /\
    archivos w' = sin_rutas (archivos w) (eliminados (concat segs)).
Proof.
  intros Hd.
  destruct (eliminar_grupos_run d 0 1 w Hd)
    as (w' & segs & Hrun & Hproc & Hnum & Hs & Hw).
  exists w', segs, (length (eliminados (concat segs))).
  split_and!; try done.
  - unfold eliminar_duplicados. rewrite (bind_Ok _ _ _ _ _ _ Hrun). done.
  - unfold eliminados. by rewrite length_fmap.
  - clear -Hproc. induction Hproc as [|g seg d segs Hg _ IH]; [done|].
    simpl. rewrite resultados_app, borrados_app, !length_app, IH.
    destruct Hg as (k & _ & _ & _ & Hres). f_equal.
    by rewrite <- Hres, length_fmap.
Qed.

Lemma eliminar_con_fallos_witness :
  Forall (fun g : string * list string => g.2 <> []) grupos_fallo /\
  exists w' segs total,
    eliminar_duplicados grupos_fallo mundo_fallo
    = (Ok tt, w', concat segs ++ [Imprime (MsgProcesoCompletado total)]) /\
    Forall2 grupo_procesado grupos_fallo segs /\
    grupos_anunciados (concat segs) = seq 1 (length grupos_fallo) /\
    total = length (eliminados (concat segs)) /\
    total = length (filter (fun x => x.2 = true) (resultados (concat segs))) /\
    length (resultados (concat segs)) = length (borrados (concat segs)) /\
    size (archivos w') + total = size (archivos mundo_fallo) /\
    archivos w' = sin_rutas (archivos mundo_fallo) (eliminados (concat segs)).
Proof.
  assert (H : Forall (fun g : string * list string => g.2 <> []) grupos_fallo).
  { repeat (constructor; [discriminate|]). constructor. }
  split; [exact H|]. exact (eliminar_con_fallos mundo_fallo grupos_fallo H).
Defined.

(** The removal of [a] fails and is reported; [b] and then the second
    group are still processed, and the total is 2. *)
Example eliminar_con_fallos_ejemplo :
  traza (eliminar_duplicados grupos_fallo mundo_fallo)
  = [Imprime (MsgGrupo 1); Consulta "d/a"; Consulta "d/b"; Consulta "d/c";
     Imprime MsgSeConservara; Imprime (MsgRuta "d/c"); Imprime MsgSeEliminaran;
     Imprime (MsgRuta "d/a"); Imprime (MsgRuta "d/b");
     Borra "d/a"; Imprime (MsgErrorAlEliminar "d/a" OSError);
     Borra "d/b"; Imprime (MsgEliminado "d/b");
     Imprime MsgLineaEnBlanco;
     Imprime (MsgGrupo 2); Consulta "d/e"; Consulta "d/f";
     Imprime MsgSeConservara; Imprime (MsgRuta "d/f"); Imprime MsgSeEliminaran;
     Imprime (MsgRuta "d/e");
     Borra "d/e"; Imprime (MsgEliminado "d/e");
     Imprime MsgLineaEnBlanco;
     Imprime (MsgProcesoCompletado 2)].
Proof. vm_compute. reflexivity. Qed.

(** ** [mostrar_duplicados_encontrados] *)

Lemma mostrar_ruta_run (w : mundo) (r : ruta) :
  exists s,
    mostrar_ruta r tt w
    = (Ok tt, w,
       [Consulta r; Imprime (MsgRuta r); Imprime (MsgUltimaModificacion s)]).
Proof.
  unfold mostrar_ruta, bind, intentar, os_path_getmtime, formatear, print,
    emitir, ret.
  destruct (archivos w !! r) as [a|]; [|by eexists].
  destruct (fecha a) as [f|]; [|by eexists].
  destruct (fecha_legible w f); by eexists.
Qed.

Lemma mostrar_rutas_run (w : mundo) (rutas : list ruta) :
  exists t,
    para_cada rutas mostrar_ruta tt w = (Ok tt, w, t) /\
    rutas_impresas t = rutas /\ borrados t = [].
Proof.
  induction rutas as [|r rutas (t & IH & Hi & Hb)]; [by exists []|].
  destruct (mostrar_ruta_run w r) as [s Hr].
  eexists. cbn [para_cada]. rewrite (bind_Ok _ _ _ _ _ _ Hr), IH.
  split; [reflexivity|]. simpl. by rewrite Hi, Hb.
Qed.

Lemma mostrar_grupo_run (w : mundo) (g : string * list ruta) :
  exists t,
    mostrar_grupo g tt w = (Ok tt, w, t) /\
    rutas_impresas t = g.2 /\ borrados t = [].
Proof.
  destruct (mostrar_rutas_run w g.2) as (t & Ht & Hi & Hb).
  exists (t ++ [Imprime MsgLineaEnBlanco]). unfold mostrar_grupo.
  rewrite (bind_Ok _ _ _ _ _ _ Ht). split; [done|].
  unfold rutas_impresas in *. rewrite borrados_app, omap_app, Hi, Hb.
  simpl. by rewrite app_nil_r.
Qed.

(** Every path of every group is printed, in order; nothing is removed
    and the world is left as it is. *)
Lemma mostrar_duplicados_encontrados_run (w : mundo) (d : dict) :
  exists t,
    mostrar_duplicados_encontrados d w = (Ok tt, w, t) /\
    rutas_impresas t = concat d.*2 /\ borrados t = [].
Proof.
  unfold mostrar_duplicados_encontrados. rewrite bind_print.
  assert (H : exists t,
    para_cada d mostrar_grupo tt w = (Ok tt, w, t) /\
    rutas_impresas t = concat d.*2 /\ borrados t = []).
  { induction d as [|g d (t & IH & Hi & Hb)]; [by exists []|].
    destruct (mostrar_grupo_run w g) as (tg & Hg & Hig & Hbg).
    exists (tg ++ t). cbn [para_cada].
    rewrite (bind_Ok _ _ _ _ _ _ Hg), IH. split; [done|].
    unfold rutas_impresas in *. rewrite borrados_app, omap_app, Hig, Hbg, Hi, Hb.
    done. }
  destruct H as (t & Ht & Hi & Hb). rewrite Ht.
  eexists. split; [reflexivity|]. simpl. by rewrite Hi, Hb.
Qed.

(** ** [main] *)

Lemma input_run (w : mundo) (p : pregunta) :
  input p w
  = match entrada w with
    | l :: resto => (Ok l, con_entrada w resto, [Pregunta p])
    | [] => (Lanza EOFError, w, [Pregunta p])
    end.
Proof. reflexivity. Qed.

(** The run up to the second question, when a folder with duplicates was
    given: the groups have been printed, nothing has been removed, and
    what follows depends on the answer alone. *)
Lemma main_hasta_confirmar (w : mundo) (l1 : string) (resto : list string) :
  entrada w = l1 :: resto ->
  strip_comillas (strip l1) ∈ carpetas w ->
  exists d tb pre,
    buscar_duplicados (strip_comillas (strip l1)) (con_entrada w resto)
    = (Ok d, con_entrada w resto, tb) /\
    borrados pre = [] /\
    (d <> [] -> rutas_impresas pre = rutas_impresas tb ++ concat d.*2) /\
    main w
    = if bool_decide (d = []) then
        (Ok tt, con_entrada w resto, pre ++ [Imprime MsgSinDuplicados])
      else
        match resto with
        | [] => (Lanza EOFError, con_entrada w resto,
                 pre ++ [Pregunta PideConfirmacion])
        | l2 :: resto' =>
            if bool_decide (lower (strip l2) = "si") then
              (valor (eliminar_duplicados d (con_entrada w resto')),
               final (eliminar_duplicados d (con_entrada w resto')),
               pre ++ Pregunta PideConfirmacion
                   :: traza (eliminar_duplicados d (con_entrada w resto')))
            else
              (Ok tt, con_entrada w resto',
               pre ++ [Pregunta PideConfirmacion; Imprime MsgCancelada])
        end.
Proof.
  intros He Hdir. set (carpeta := strip_comillas (strip l1)) in *.
  destruct (buscar_duplicados_run (con_entrada w resto) carpeta)
    as (d & tb & Hb & _ & _ & Hbb).
  destruct (mostrar_duplicados_encontrados_run (con_entrada w resto) d)
    as (tm & Hm & Him & Hbm).
  exists d, tb.
  exists ([Imprime MsgTitulo; Pregunta PideCarpeta; EsCarpeta carpeta] ++ tb
          ++ if bool_decide (d = []) then [] else tm).
  split; [done|]. split.
  { rewrite !borrados_app, Hbb. simpl. by case_bool_decide. }
  split.
  { intros Hd. rewrite bool_decide_eq_false_2 by done.
    unfold rutas_impresas in *. rewrite !omap_app, Him. done. }
  unfold main. rewrite bind_print.
  rewrite (bind_Ok _ _ _ l1 (con_entrada w resto) [Pregunta PideCarpeta])
    by (by rewrite input_run, He).
  cbn [fst snd]. fold carpeta.
  rewrite (bind_Ok _ _ _ true (con_entrada w resto) [EsCarpeta carpeta])
    by (unfold os_path_isdir; by rewrite bool_decide_eq_true_2).
  cbn [fst snd negb].
  rewrite (bind_Ok _ _ _ _ _ _ Hb). cbn [fst snd].
  case_bool_decide as Hd.
  - simpl. by rewrite app_nil_r.
  - rewrite (bind_Ok _ _ _ _ _ _ Hm). cbn [fst snd].
    destruct resto as [|l2 resto'].
    + simpl. by rewrite <- !app_assoc.
    + rewrite (bind_Ok _ _ _ l2 (con_entrada w resto') [Pregunta PideConfirmacion])
        by done.
      cbn [fst snd]. case_bool_decide as Hsi.
      * unfold valor, final, traza. simpl. by rewrite <- !app_assoc.
      * simpl. by rewrite <- !app_assoc.
Qed.

Lemma main_sin_entrada (w : mundo) :
  entrada w = [] ->
  main w = (Lanza EOFError, w, [Imprime MsgTitulo; Pregunta PideCarpeta]).
Proof.
  intros He. unfold main. rewrite bind_print.
  rewrite (bind_Lanza _ _ _ EOFError w [Pregunta PideCarpeta]); [done|].
  by rewrite input_run, He.
Qed.

Lemma main_raiz_invalida (w : mundo) (l : string) (resto : list string) :
  entrada w = l :: resto ->
  strip_comillas (strip l) ∉ carpetas w ->
  main w
  = (Ok tt, con_entrada w resto,
     [Imprime MsgTitulo; Pregunta PideCarpeta;
      EsCarpeta (strip_comillas (strip l)); Imprime MsgRutaInvalida]).
Proof.
  intros He Hdir. unfold main. rewrite bind_print.
  rewrite (bind_Ok _ _ _ l (con_entrada w resto) [Pregunta PideCarpeta])
    by (by rewrite input_run, He).
  cbn [fst snd].
  rewrite (bind_Ok _ _ _ false (con_entrada w resto)
             [EsCarpeta (strip_comillas (strip l))])
    by (unfold os_path_isdir; by rewrite bool_decide_eq_false_2).
  done.
Qed.

(** C8: when the path typed, once trimmed, is not an existing folder,
    the run prints the message and returns: it has walked no folder,
    opened no file and attempted no removal, and the files are as they
    were. *)
Theorem raiz_invalida (w : mundo) (l : string) (resto : list string) :
  entrada w = l :: resto ->
  strip_comillas (strip l) ∉ carpetas w ->
  valor (main w) = Ok tt /\
  traza (main w)
  = [Imprime MsgTitulo; Pregunta PideCarpeta;
     EsCarpeta (strip_comillas (strip l)); Imprime MsgRutaInvalida] /\
  recorridas (traza (main w)) = [] /\
  abiertos (traza (main w)) = [] /\
  borrados (traza (main w)) = [] /\
  archivos (final (main w)) = archivos w.
Proof.
  intros He Hdir. by rewrite (main_raiz_invalida w l resto He Hdir).
Qed.

Lemma raiz_invalida_witness :
  entrada mundo_raiz_invalida = "  otra  " :: ["si"] /\
  (strip_comillas (strip "  otra  ") ∉ carpetas mundo_raiz_invalida) /\
  valor (main mundo_raiz_invalida) = Ok tt /\
  traza (main mundo_raiz_invalida)
  = [Imprime MsgTitulo; Pregunta PideCarpeta;
     EsCarpeta (strip_comillas (strip "  otra  ")); Imprime MsgRutaInvalida] /\
  recorridas (traza (main mundo_raiz_invalida)) = [] /\
  abiertos (traza (main mundo_raiz_invalida)) = [] /\
  borrados (traza (main mundo_raiz_invalida)) = [] /\
  archivos (final (main mundo_raiz_invalida)) = archivos mundo_raiz_invalida.
Proof.
  assert (H : strip_comillas (strip "  otra  ") ∉ carpetas mundo_raiz_invalida).
  { refine (bool_decide_unpack _ _). vm_compute. exact I. }
  split; [reflexivity|]. split; [exact H|].
  exact (raiz_invalida mundo_raiz_invalida "  otra  " ["si"] eq_refl H).
Defined.

(** C7: a removal is attempted, or the file table changes, only when a
    second line was typed that, trimmed and lowered, is [si].  With any
    other second line nothing is removed; and if the folder was valid and
    had duplicates, the run returns after printing every path of every
    group and, last, the cancellation message.  With [si], in that
    case, what follows the question is the run of
    [eliminar_duplicados]. *)
Theorem solo_con_si (w : mundo) :
  (borrados (traza (main w)) <> [] \/ archivos (final (main w)) <> archivos w ->
   exists l1 l2 resto,
     entrada w = l1 :: l2 :: resto /\ lower (strip l2) = "si") /\
  (forall l1 l2 resto,
     entrada w = l1 :: l2 :: resto ->
     lower (strip l2) <> "si" ->
     borrados (traza (main w)) = [] /\
     archivos (final (main w)) = archivos w /\
     forall d,
       strip_comillas (strip l1) ∈ carpetas w ->
       valor (buscar_duplicados (strip_comillas (strip l1))
                (con_entrada w (l2 :: resto))) = Ok d ->
       d <> [] ->
       valor (main w) = Ok tt /\
       last (traza (main w)) = Some (Imprime MsgCancelada) /\
       forall p, p ∈ concat d.*2 -> p ∈ rutas_impresas (traza (main w))) /\
  (forall l1 l2 resto d,
     entrada w = l1 :: l2 :: resto ->
     lower (strip l2) = "si" ->
     strip_comillas (strip l1) ∈ carpetas w ->
     valor (buscar_duplicados (strip_comillas (strip l1))
              (con_entrada w (l2 :: resto))) = Ok d ->
     d <> [] ->
     exists pre,
       borrados pre = [] /\
       traza (main w)
       = pre ++ traza (eliminar_duplicados d (con_entrada w resto))).
Proof.
  split_and!.
  - intros Hcambio.
    destruct (entrada w) as [|l1 resto] eqn:He.
    { rewrite (main_sin_entrada w He) in Hcambio. by destruct Hcambio. }
    destruct (decide (strip_comillas (strip l1) ∈ carpetas w)) as [Hdir|Hdir];
      [|rewrite (main_raiz_invalida w l1 resto He Hdir) in Hcambio;
        by destruct Hcambio].
    destruct (main_hasta_confirmar w l1 resto He Hdir)
      as (d & tb & pre & _ & Hpre & _ & Hmain).
    rewrite Hmain in Hcambio. clear Hmain.
    case_bool_decide.
    { unfold traza, final in Hcambio. simpl in Hcambio.
      rewrite borrados_app, Hpre in Hcambio. by destruct Hcambio. }
    destruct resto as [|l2 resto'].
    { unfold traza, final in Hcambio. simpl in Hcambio.
      rewrite borrados_app, Hpre in Hcambio. by destruct Hcambio. }
    case_bool_decide as Hsi; [by exists l1, l2, resto'|].
    unfold traza, final in Hcambio. simpl in Hcambio.
    rewrite borrados_app, Hpre in Hcambio. by destruct Hcambio.
  - intros l1 l2 resto He Hno.
    destruct (decide (strip_comillas (strip l1) ∈ carpetas w)) as [Hdir|Hdir];
      [|by rewrite (main_raiz_invalida w l1 _ He Hdir)].
    destruct (main_hasta_confirmar w l1 _ He Hdir)
      as (d & tb & pre & Hb & Hpre & Himp & Hmain).
    rewrite Hmain. clear Hmain. rewrite (bool_decide_eq_false_2 _ Hno).
    case_bool_decide as Hd.
    + unfold traza, final. simpl. rewrite borrados_app, Hpre.
      split_and!; [done|done|]. intros d' _ Hd'. rewrite Hb in Hd'.
      injection Hd' as <-. done.
    + unfold traza, final, valor. simpl. rewrite borrados_app, Hpre.
      split_and!; [done|done|]. intros d' _ Hd'. rewrite Hb in Hd'.
      injection Hd' as <-. intros _. split_and!; [done| |].
      * by rewrite last_app.
      * intros p Hp. unfold rutas_impresas in *. rewrite omap_app.
        rewrite (Himp Hd). apply elem_of_app. left. apply elem_of_app. by right.
  - intros l1 l2 resto d He Hsi Hdir Hd Hne.
    destruct (main_hasta_confirmar w l1 _ He Hdir)
      as (d' & tb & pre & Hb & Hpre & _ & Hmain).
    rewrite Hb in Hd. injection Hd as ->.
    rewrite Hmain, (bool_decide_eq_false_2 _ Hne), (bool_decide_eq_true_2 _ Hsi).
    exists (pre ++ [Pregunta PideConfirmacion]). split.
    + by rewrite borrados_app, Hpre.
    + unfold traza at 1. simpl. by rewrite <- app_assoc.
Qed.

Lemma solo_con_si_witness :
  entrada (mundo_pregunta " No ") = entrada (mundo_pregunta " No ") /\
  lower (strip " No ") <> "si" /\
  borrados (traza (main (mundo_pregunta " No "))) = [] /\
  archivos (final (main (mundo_pregunta " No ")))
  = archivos (mundo_pregunta " No ") /\
  valor (main (mundo_pregunta " No ")) = Ok tt /\
  last (traza (main (mundo_pregunta " No "))) = Some (Imprime MsgCancelada) /\
  ("d/a" ∈ rutas_impresas (traza (main (mundo_pregunta " No ")))).
Proof.
  assert (Hno : lower (strip " No ") <> "si") by (by vm_compute).
  destruct (solo_con_si (mundo_pregunta " No ")) as (_ & H & _).
  destruct (H _ " No " [] eq_refl Hno) as (Hb & Ha & Hd).
  destruct (Hd [("2d711642b726b04401627ca9fbac32f5c8530fb1903cc4db02258717921a4881",
                 ["d/a"; "d/b"])]) as (Hv & Hl & Hp).
  - refine (bool_decide_unpack _ _). vm_compute. exact I.
  - vm_compute. reflexivity.
  - discriminate.
  - split_and!; [reflexivity|exact Hno|exact Hb|exact Ha|exact Hv|exact Hl|].
    apply Hp. refine (bool_decide_unpack _ _). vm_compute. exact I.
Defined.

(** The spec's scenario: [a] and [b] hold the same bytes, [b] is newer,
    [c] is alone; the user answers [SI] with spaces around. *)
Example main_confirma :
  traza (main (mundo_pregunta " SI "))
  = [Imprime MsgTitulo; Pregunta PideCarpeta; EsCarpeta "d";
     Imprime MsgEscaneando; Recorre "d"; Abre "d/a"; Abre "d/b"; Abre "d/c";
     Imprime MsgBusquedaCompletada;
     Imprime MsgEncontrados;
     Consulta "d/a"; Imprime (MsgRuta "d/a"); Imprime (MsgUltimaModificacion "fecha");
     Consulta "d/b"; Imprime (MsgRuta "d/b"); Imprime (MsgUltimaModificacion "fecha");
     Imprime MsgLineaEnBlanco;
     Pregunta PideConfirmacion;
     Imprime (MsgGrupo 1); Consulta "d/a"; Consulta "d/b";
     Imprime MsgSeConservara; Imprime (MsgRuta "d/b"); Imprime MsgSeEliminaran;
     Imprime (MsgRuta "d/a"); Borra "d/a"; Imprime (MsgEliminado "d/a");
     Imprime MsgLineaEnBlanco; Imprime (MsgProcesoCompletado 1)] /\
  dom (archivos (final (main (mundo_pregunta " SI ")))) = {["d/b"; "d/c"]}.
Proof.
  split; [vm_compute; reflexivity|].
  refine (bool_decide_unpack _ _). by vm_compute.
Qed.

(** An answer that is not [si] once trimmed and lowered cancels. *)
Example main_declina :
  traza (main (mundo_pregunta "s"))
  = [Imprime MsgTitulo; Pregunta PideCarpeta; EsCarpeta "d";
     Imprime MsgEscaneando; Recorre "d"; Abre "d/a"; Abre "d/b"; Abre "d/c";
     Imprime MsgBusquedaCompletada;
     Imprime MsgEncontrados;
     Consulta "d/a"; Imprime (MsgRuta "d/a"); Imprime (MsgUltimaModificacion "fecha");
     Consulta "d/b"; Imprime (MsgRuta "d/b"); Imprime (MsgUltimaModificacion "fecha");
     Imprime MsgLineaEnBlanco;
     Pregunta PideConfirmacion; Imprime MsgCancelada].
Proof. vm_compute. reflexivity. Qed.

(** ** More on [buscar_duplicados] *)

Lemma primeras_snoc (l : list string) (h : string) :
  primeras (l ++ [h])
  = if decide (h ∈ primeras l) then primeras l else primeras l ++ [h].
Proof. unfold primeras. by rewrite fold_left_app. Qed.

Lemma primeras_elem_of (l : list string) (x : string) :
  x ∈ primeras l <-> x ∈ l.
Proof.
  induction l as [|h l IH] using rev_ind; [done|].
  rewrite primeras_snoc, elem_of_app, list_elem_of_singleton, <- IH.
  destruct (decide (h ∈ primeras l)) as [Hin|Hnin].
  - split; [by left|]. intros [? | ->]; done.
  - by rewrite elem_of_app, list_elem_of_singleton.
Qed.

Lemma primeras_NoDup (l : list string) : NoDup (primeras l).
Proof.
  induction l as [|h l IH] using rev_ind; [constructor|].
  rewrite primeras_snoc. destruct (decide (h ∈ primeras l)) as [Hin|Hnin]; [done|].
  apply NoDup_app. split_and!; [done| |apply NoDup_singleton].
  intros x Hx ->%list_elem_of_singleton. done.
Qed.

(** A dictionary with distinct keys is its keys paired with their
    values. *)
Lemma dict_por_claves (d : dict) (f : string -> list string) :
  NoDup d.*1 ->
  (forall h, h ∈ d.*1 -> dict_get h d = Some (f h)) ->
  d = map (fun h => (h, f h)) d.*1.
Proof.
  induction d as [|[k v] d IH]; [done|]. csimpl.
  intros [Hk Hnd]%NoDup_cons Hget. f_equal.
  - assert (H := Hget k). simpl in H. rewrite decide_True in H by done.
    f_equal. assert (Some v = Some (f k)) as [= ->]; [|done]. apply H. left.
  - apply IH; [done|]. intros h Hh. assert (H := Hget h). simpl in H.
    rewrite decide_False in H; [apply H; by right|]. by intros ->.
Qed.

(** A loop whose body returns and leaves the world as it is: an
    invariant over the items seen, the state and the trace so far. *)
Lemma para_cada_traza {A S} (I : list A -> S -> list evento -> Prop)
    (cuerpo : A -> S -> M S) (w : mundo) (l : list A) :
  (forall pre x s t, I pre s t ->
     exists s' t', cuerpo x s w = (Ok s', w, t') /\ I (pre ++ [x]) s' (t ++ t')) ->
  forall pre s t, I pre s t ->
    exists s' t', para_cada l cuerpo s w = (Ok s', w, t') /\
                  I (pre ++ l) s' (t ++ t').
Proof.
  intros Hc. induction l as [|x l IH]; intros pre s t HI.
  - exists s, []. by rewrite !app_nil_r.
  - destruct (Hc pre x s t HI) as (s1 & t1 & Hx & HI1).
    destruct (IH (pre ++ [x]) s1 (t ++ t1) HI1) as (s2 & t2 & Hl & HI2).
    exists s2, (t1 ++ t2). cbn [para_cada].
    rewrite (bind_Ok _ _ _ _ _ _ Hx), Hl. split; [done|].
    by rewrite <- !app_assoc in HI2.
Qed.

(** One file more: the keys and the trace. *)
Lemma registrar_claves (w : mundo) (pre : list ruta) (actual nombre : string)
    (d : dict) :
  agrupado w pre d ->
  d.*1 = primeras (omap (huella w) pre) ->
  exists d',
    registrar actual nombre d w
    = (Ok d', w, traza_lecturas w [os_path_join actual nombre]) /\
    agrupado w (pre ++ [os_path_join actual nombre]) d' /\
    d'.*1 = primeras (omap (huella w) (pre ++ [os_path_join actual nombre])).
Proof.
  intros Hag Hk.
  destruct (registrar_run w pre actual nombre d Hag) as (d' & t & Hrun & Hag' & _).
  exists d'. split_and!; [|done|].
  - rewrite Hrun. f_equal. clear Hag'. revert Hrun. unfold registrar.
    rewrite (bind_Ok _ _ _ _ _ _ (obtener_hash_run w _)).
    simpl. destruct (huella w (os_path_join actual nombre)) as [h|]; simpl.
    + unfold dict_item. destruct (dict_get h _); simpl; [|done].
      by intros [= _ <-].
    + by intros [= _ <-].
  - revert Hrun. unfold registrar.
    rewrite (bind_Ok _ _ _ _ _ _ (obtener_hash_run w _)).
    rewrite omap_app. simpl.
    destruct (huella w (os_path_join actual nombre)) as [h|]; simpl.
    + unfold dict_item. destruct (dict_get h _) as [v|]; simpl; [|done].
      intros [= <- _]. rewrite primeras_snoc, <- Hk, dict_set_claves.
      unfold dict_in. destruct (decide (h ∈ d.*1)) as [Hin|Hnin].
      * rewrite (bool_decide_eq_true_2 _ Hin).
        by rewrite (bool_decide_eq_true_2 _ Hin).
      * rewrite (bool_decide_eq_false_2 _ Hnin). rewrite dict_set_claves.
        unfold dict_in. rewrite (bool_decide_eq_false_2 _ Hnin).
        rewrite bool_decide_eq_true_2; [done|]. set_solver.
    + intros [= <- _]. by rewrite app_nil_r.
Qed.

Lemma traza_lecturas_app (w : mundo) (a b : list ruta) :
  traza_lecturas w (a ++ b) = traza_lecturas w a ++ traza_lecturas w b.
Proof. apply flat_map_app. Qed.

Lemma recorrer_completo (w : mundo) (pasos : list paso_walk) :
  exists d,
    para_cada pasos (fun paso duplicados =>
      para_cada paso.2 (fun nombre duplicados =>
        registrar paso.1.1 nombre duplicados) duplicados) [] w
    = (Ok d, w, traza_lecturas w (rutas_de pasos)) /\
    agrupado w (rutas_de pasos) d /\
    d.*1 = primeras (omap (huella w) (rutas_de pasos)).
Proof.
  pose (I := fun (l : list ruta) (d : dict) (t : list evento) =>
               agrupado w l d /\ d.*1 = primeras (omap (huella w) l) /\
               t = traza_lecturas w l).
  destruct (para_cada_traza (fun pre => I (rutas_de pre))
              (fun paso duplicados =>
                 para_cada paso.2 (fun nombre duplicados =>
                   registrar paso.1.1 nombre duplicados) duplicados)
              w pasos) with (pre := @nil paso_walk) (s := @nil (string * list string))
              (t := @nil evento)
    as (d & t & Hrun & Hag & Hk & Ht).
  - intros pre paso d t HI.
    destruct (para_cada_traza
                (fun noms => I (rutas_de pre ++ map (os_path_join paso.1.1) noms))
                (fun nombre duplicados => registrar paso.1.1 nombre duplicados)
                w paso.2) with (pre := @nil string) (s := d) (t := t)
      as (d' & t' & Hrun & HI').
    + intros noms nombre d1 t1 (Hag & Hk & ->).
      rewrite map_app, app_assoc. simpl.
      destruct (registrar_claves w _ paso.1.1 nombre d1 Hag Hk)
        as (d2 & Hr & Hag2 & Hk2).
      exists d2, (traza_lecturas w [os_path_join paso.1.1 nombre]).
      split; [exact Hr|]. unfold I. split; [exact Hag2|]. split; [exact Hk2|].
      symmetry. apply traza_lecturas_app.
    + simpl. rewrite app_nil_r. exact HI.
    + exists d', t'. split; [done|]. rewrite rutas_de_snoc. exact HI'.
  - unfold I. split_and!; [apply agrupado_nil|done|done].
  - exists d. simpl in Ht. subst t. done.
Qed.

(** The whole of [buscar_duplicados]: its result, the world it leaves
    and its trace. *)
Lemma buscar_duplicados_ecuacion (w : mundo) (carpeta : ruta) :
  buscar_duplicados carpeta w
  = (Ok (grupos_de w (rutas_recorridas w carpeta)), w,
     Imprime MsgEscaneando :: Recorre carpeta
     :: traza_lecturas w (rutas_recorridas w carpeta)
     ++ [Imprime MsgBusquedaCompletada]).
Proof.
  destruct (recorrer_completo w (recorrido w carpeta))
    as (d & Hrun & [Hnd Hget] & Hk).
  fold (rutas_recorridas w carpeta) in *.
  assert (Hd : d = map (fun h => (h, grupo w (rutas_recorridas w carpeta) h))
                       (primeras (omap (huella w) (rutas_recorridas w carpeta)))).
  { rewrite <- Hk. apply dict_por_claves; [done|].
    intros h Hh. rewrite Hget.
    destruct (decide (grupo w (rutas_recorridas w carpeta) h = [])) as [He|]; [|done].
    exfalso. assert (Hin : dict_in h d = true)
      by (unfold dict_in; by rewrite bool_decide_eq_true).
    apply dict_in_get in Hin. rewrite Hget, He in Hin. by apply Hin. }
  unfold buscar_duplicados. rewrite bind_print.
  rewrite (bind_Ok _ _ w (recorrido w carpeta) w [Recorre carpeta]) by done.
  rewrite (bind_Ok _ _ _ _ _ _ Hrun), bind_print. simpl.
  unfold grupos_de. by rewrite <- Hd.
Qed.

Lemma traza_lecturas_proyecciones (w : mundo) (l : list ruta) :
  abiertos (traza_lecturas w l) = l /\
  borrados (traza_lecturas w l) = [] /\
  recorridas (traza_lecturas w l) = [] /\
  rutas_impresas (traza_lecturas w l) = [] /\
  no_leidos (traza_lecturas w l) = filter (fun p => huella w p = None) l.
Proof.
  induction l as [|p l (Ha & Hb & Hr & Hi & Hn)]; [done|].
  assert (E : traza_lecturas w (p :: l)
              = traza_lecturas w [p] ++ traza_lecturas w l)
    by apply (traza_lecturas_app w [p] l).
  rewrite E. clear E.
  unfold abiertos, borrados, recorridas, rutas_impresas, no_leidos in *.
  rewrite !omap_app, Ha, Hb, Hr, Hi, Hn, filter_cons. simpl.
  by destruct (huella w p).
Qed.

(** X1: the result of [buscar_duplicados] in full.  The groups come in the
    order in which their digests first appear in the walk, each lists the
    walked paths with that digest in the order of the walk, and only the
    digests with more than one path are there. *)
Theorem buscar_duplicados_en_orden (w : mundo) (carpeta : ruta) :
  valor (buscar_duplicados carpeta w)
  = Ok (filter (fun e => 1 < length e.2)
          (map (fun h =>
                  (h, filter (fun p => huella w p = Some h)
                        (rutas_recorridas w carpeta)))
             (primeras (omap (huella w) (rutas_recorridas w carpeta))))) /\
  forall p, valor (obtener_hash p w) = Ok (huella w p).
Proof.
  split; [by rewrite buscar_duplicados_ecuacion|]. apply obtener_hash_valor.
Qed.


Lemma filter_dos_inv {A} (P : A -> Prop) `{!forall x, Decision (P x)}
    (l : list A) (i j : nat) (p q : A) :
  i <> j -> l !! i = Some p -> l !! j = Some q -> P p -> P q ->
  1 < length (filter P l).
Proof.
  revert i j. induction l as [|x l IH]; intros i j Hij Hi Hj Hp Hq; [done|].
  rewrite filter_cons.
  destruct i as [|i], j as [|j]; simpl in *; try done.
  - injection Hi as ->. rewrite decide_True by done. simpl.
    assert (Hin : q ∈ filter P l).
    { apply list_elem_of_filter. split; [done|]. by eapply list_elem_of_lookup_2. }
    destruct (filter P l); [by apply elem_of_nil in Hin|simpl; lia].
  - injection Hj as ->. rewrite decide_True by done. simpl.
    assert (Hin : p ∈ filter P l).
    { apply list_elem_of_filter. split; [done|]. by eapply list_elem_of_lookup_2. }
    destruct (filter P l); [by apply elem_of_nil in Hin|simpl; lia].
  - assert (1 < length (filter P l)) by (apply (IH i j); [lia|done..]).
    destruct (decide (P x)); simpl; lia.
Qed.

(** X3: no duplicate is missed.  When two entries of the walk have the
    same digest, the result has a group for that digest and both paths
    are in it. *)
Theorem buscar_duplicados_completa (w : mundo) (carpeta : ruta)
    (i j : nat) (p q : ruta) (h : string) :
  i <> j ->
  rutas_recorridas w carpeta !! i = Some p ->
  rutas_recorridas w carpeta !! j = Some q ->
  valor (obtener_hash p w) = Ok (Some h) ->
  valor (obtener_hash q w) = Ok (Some h) ->
  exists d v,
    valor (buscar_duplicados carpeta w) = Ok d /\
    (h, v) ∈ d /\ p ∈ v /\ q ∈ v.
Proof.
  intros Hij Hi Hj Hp Hq. rewrite obtener_hash_valor in Hp, Hq.
  injection Hp as Hp. injection Hq as Hq.
  destruct (buscar_duplicados_run w carpeta) as (d & t & Hrun & _ & Hd & _).
  exists d, (grupo w (rutas_recorridas w carpeta) h). rewrite Hrun.
  split_and!; [done| | |].
  - apply Hd. split; [done|]. by apply (filter_dos_inv _ _ i j p q).
  - apply list_elem_of_filter. split; [done|]. by eapply list_elem_of_lookup_2.
  - apply list_elem_of_filter. split; [done|]. by eapply list_elem_of_lookup_2.
Qed.

Lemma buscar_duplicados_completa_witness :
  0 <> 1 /\
  rutas_recorridas mundo_abc "d" !! 0 = Some "d/a" /\
  rutas_recorridas mundo_abc "d" !! 1 = Some "d/b" /\
  valor (obtener_hash "d/a" mundo_abc)
  = Ok (Some "ba7816bf8f01cfea414140de5dae2223b00361a396177a9cb410ff61f20015ad") /\
  valor (obtener_hash "d/b" mundo_abc)
  = Ok (Some "ba7816bf8f01cfea414140de5dae2223b00361a396177a9cb410ff61f20015ad") /\
  exists d v,
    valor (buscar_duplicados "d" mundo_abc) = Ok d /\
    (("ba7816bf8f01cfea414140de5dae2223b00361a396177a9cb410ff61f20015ad", v) ∈ d) /\
    ("d/a" ∈ v) /\ ("d/b" ∈ v).
Proof.
  assert (Hij : 0 <> 1) by lia.
  assert (Ha : valor (obtener_hash "d/a" mundo_abc)
    = Ok (Some "ba7816bf8f01cfea414140de5dae2223b00361a396177a9cb410ff61f20015ad"))
    by (vm_compute; reflexivity).
  assert (Hb : valor (obtener_hash "d/b" mundo_abc)
    = Ok (Some "ba7816bf8f01cfea414140de5dae2223b00361a396177a9cb410ff61f20015ad"))
    by (vm_compute; reflexivity).
  split_and!; [exact Hij|reflexivity|reflexivity|exact Ha|exact Hb|].
  exact (buscar_duplicados_completa mundo_abc "d" 0 1 "d/a" "d/b" _
           Hij eq_refl eq_refl Ha Hb).
Defined.

(** X4: the groups do not overlap.  The keys of the result are distinct,
    and a path that is in two entries of the result is in one and the
    same entry. *)
Theorem grupos_disjuntos (w : mundo) (carpeta : ruta) :
  exists d,
    valor (buscar_duplicados carpeta w) = Ok d /\
    NoDup d.*1 /\
    forall h1 v1 h2 v2 p,
      (h1, v1) ∈ d -> (h2, v2) ∈ d -> p ∈ v1 -> p ∈ v2 ->
      h1 = h2 /\ v1 = v2.
Proof.
  destruct (buscar_duplicados_run w carpeta) as (d & t & Hrun & Hnd & Hd & _).
  exists d. rewrite Hrun. split_and!; [done|done|].
  intros h1 v1 h2 v2 p [-> _]%Hd [-> _]%Hd
    [H1 _]%list_elem_of_filter [H2 _]%list_elem_of_filter.
  assert (h1 = h2) as -> by congruence. done.
Qed.

(** ** More on [obtener_hash] *)


(** X6: a file with no bytes that can be opened, and whose first read
    does not raise, gets the digest of the empty message: every such file
    has the same digest as every other. *)
Theorem obtener_hash_vacio (w : mundo) (r : ruta) (a : archivo) :
  archivos w !! r = Some a ->
  contenido a = [] ->
  abrible a = true ->
  falla_lectura a <> Some 0 ->
  valor (obtener_hash r w)
  = Ok (Some "e3b0c44298fc1c149afbf4c8996fb92427ae41e4649b934ca495991b7852b855").
Proof.
  intros Ha Hc Hab Hf. rewrite obtener_hash_valor. unfold huella.
  rewrite Ha. unfold legible, lectura_falla. rewrite Hab, Hc.
  change (techo (length (@nil byte))) with 0.
  assert (Hv : SHA256.hex (SHA256.sha256 [])
    = "e3b0c44298fc1c149afbf4c8996fb92427ae41e4649b934ca495991b7852b855")
    by (vm_compute; reflexivity).
  rewrite Hv.
  destruct (falla_lectura a) as [[|k]|].
  - congruence.
  - rewrite bool_decide_eq_false_2 by lia. reflexivity.
  - reflexivity.
Qed.

Lemma obtener_hash_vacio_witness :
  archivos (mundo_de [("d/v", fichero EmptyString None)] ["v"] []) !! "d/v"
  = Some (fichero EmptyString None) /\
  contenido (fichero EmptyString None) = [] /\
  abrible (fichero EmptyString None) = true /\
  falla_lectura (fichero EmptyString None) <> Some 0 /\
  valor (obtener_hash "d/v" (mundo_de [("d/v", fichero EmptyString None)] ["v"] []))
  = Ok (Some "e3b0c44298fc1c149afbf4c8996fb92427ae41e4649b934ca495991b7852b855").
Proof.
  assert (Hf : falla_lectura (fichero EmptyString None) <> Some 0) by discriminate.
  split_and!; [by vm_compute|reflexivity|reflexivity|exact Hf|].
  apply (obtener_hash_vacio _ "d/v" (fichero EmptyString None));
    [by vm_compute|reflexivity|reflexivity|exact Hf].
Defined.

(** ** More on [archivo_mas_reciente] *)



(** A path listed twice that is the newest leaves one path to delete. *)
Example archivo_mas_reciente_repetida :
  valor (archivo_mas_reciente ["d/b"; "d/a"; "d/b"] mundo_empate)
  = Ok ("d/b", ["d/a"]).
Proof. vm_compute. done. Qed.

(** X8: when one member is strictly newer than every other member, it is
    the one kept, wherever it stands in the group. *)
Theorem mas_reciente_unico (w : mundo) (rutas : list ruta) (k : ruta) :
  k ∈ rutas ->
  (forall r, r ∈ rutas -> r <> k ->
     (fecha_efectiva w r < fecha_efectiva w k)%Q) ->
  valor (archivo_mas_reciente rutas w)
  = Ok (k, filter (fun r => r <> k) rutas).
Proof.
  intros Hk Hmax.
  assert (Hne : rutas <> []) by (intros ->; by apply elem_of_nil in Hk).
  destruct (archivo_mas_reciente_run w rutas Hne)
    as (k' & r1 & r2 & Hrun & Hr & H1 & H2).
  rewrite Hrun. unfold valor. simpl.
  destruct (decide (k' = k)) as [->|Hkk]; [done|]. exfalso.
  assert (Hlt : (fecha_efectiva w k' < fecha_efectiva w k)%Q).
  { apply Hmax; [rewrite Hr; apply elem_of_app; right; left|done]. }
  assert (Hle : (fecha_efectiva w k <= fecha_efectiva w k')%Q).
  { rewrite Forall_forall in H1. rewrite Forall_forall in H2.
    rewrite Hr, elem_of_app, elem_of_cons in Hk.
    destruct Hk as [Hk|[->|Hk]]; [apply Qlt_le_weak; auto|done|auto]. }
  apply (Qlt_not_le _ _ Hlt Hle).
Qed.

Lemma mas_reciente_unico_witness :
  ("d/b" ∈ ["d/a"; "d/b"]) /\
  (forall r, r ∈ ["d/a"; "d/b"] -> r <> "d/b" ->
     (fecha_efectiva mundo_abc r < fecha_efectiva mundo_abc "d/b")%Q) /\
  valor (archivo_mas_reciente ["d/a"; "d/b"] mundo_abc)
  = Ok ("d/b", filter (fun r => r <> "d/b") ["d/a"; "d/b"]).
Proof.
  assert (Hk : "d/b" ∈ ["d/a"; "d/b"])
    by (refine (bool_decide_unpack _ _); vm_compute; exact I).
  assert (Hmax : forall r, r ∈ ["d/a"; "d/b"] -> r <> "d/b" ->
            (fecha_efectiva mundo_abc r < fecha_efectiva mundo_abc "d/b")%Q).
  { intros r Hr Hne. apply elem_of_cons in Hr as [->|Hr]; [reflexivity|].
    apply list_elem_of_singleton in Hr. done. }
  split; [exact Hk|]. split; [exact Hmax|].
  exact (mas_reciente_unico mundo_abc ["d/a"; "d/b"] "d/b" Hk Hmax).
Defined.

(** ** More on [eliminar_duplicados] *)

Lemma para_cada_app {A S} (l1 l2 : list A) (cuerpo : A -> S -> M S) (s : S)
    (w : mundo) :
  para_cada (l1 ++ l2) cuerpo s w
  = (s' <- para_cada l1 cuerpo s ;; para_cada l2 cuerpo s') w.
Proof.
  revert s w. induction l1 as [|x l1 IH]; intros s w; simpl.
  - by rewrite bind_ret.
  - unfold bind. destruct (cuerpo x s w) as [[[s1| |] w1] t1]; [|done..].
    rewrite IH. unfold bind.
    destruct (para_cada l1 cuerpo s1 w1) as [[[s2| |] w2] t2]; [|done..].
    destruct (para_cada l2 cuerpo s2 w2) as [[r3 w3] t3].
    by rewrite app_assoc.
Qed.

(** X9: a group with no member stops the run.  The groups before it are
    processed as usual; at the empty one [max] raises [ValueError] right
    after its number is printed; the exception is not caught, the groups
    after it are not looked at and no total is printed. *)
Theorem eliminar_grupo_vacio (w : mundo) (d1 d2 : dict) (h : string) :
  Forall (fun g => g.2 <> []) d1 ->
  exists w' segs,
    eliminar_duplicados (d1 ++ (h, []) :: d2) w
    = (Lanza ValueError, w',
       concat segs ++ [Imprime (MsgGrupo (1 + length d1))]) /\
    Forall2 grupo_procesado d1 segs /\
    archivos w' = sin_rutas (archivos w) (eliminados (concat segs)).
Proof.
  intros Hd.
  destruct (eliminar_grupos_run d1 0 1 w Hd)
    as (w' & segs & Hrun & Hproc & _ & _ & Hw).
  exists w', segs. split_and!; [|done|done].
  unfold eliminar_duplicados.
  erewrite bind_Lanza; [reflexivity|].
  rewrite para_cada_app, (bind_Ok _ _ _ _ _ _ Hrun). cbn [fst snd para_cada].
  erewrite bind_Lanza; [reflexivity|].
  unfold eliminar_grupo. cbn [fst snd]. rewrite bind_print.
  erewrite bind_Lanza by apply archivo_mas_reciente_vacio. done.
Qed.

Lemma eliminar_grupo_vacio_witness :
  Forall (fun g : string * list string => g.2 <> []) grupos_fallo /\
  exists w' segs,
    eliminar_duplicados (grupos_fallo ++ ("z", []) :: [("u", ["d/c"])]) mundo_fallo
    = (Lanza ValueError, w',
       concat segs ++ [Imprime (MsgGrupo (1 + length grupos_fallo))]) /\
    Forall2 grupo_procesado grupos_fallo segs /\
    archivos w' = sin_rutas (archivos mundo_fallo) (eliminados (concat segs)).
Proof.
  assert (H : Forall (fun g : string * list string => g.2 <> []) grupos_fallo).
  { repeat (constructor; [discriminate|]). constructor. }
  split; [exact H|].
  exact (eliminar_grupo_vacio mundo_fallo grupos_fallo [("u", ["d/c"])] "z" H).
Defined.

Lemma sin_rutas_lookup (m : gmap string archivo) (l : list ruta) (k : ruta) :
  k ∉ l -> sin_rutas m l !! k = m !! k.
Proof.
  revert m. induction l as [|x l IH]; intros m Hk; [done|].
  apply not_elem_of_cons in Hk as [Hkx Hk].
  change (sin_rutas m (x :: l)) with (sin_rutas (delete x m) l).
  rewrite IH by done. by apply lookup_delete_ne.
Qed.



Lemma procesados_borrados (d : dict) (segs : list (list evento)) (p : ruta) :
  Forall2 grupo_procesado d segs ->
  p ∈ borrados (concat segs) ->
  exists i g k,
    d !! i = Some g /\ k ∈ g.2 /\ p ∈ g.2 /\ p <> k.
Proof.
  induction 1 as [|g seg d segs (k & Hk & Hb & _) _ IH]; simpl.
  - by intros ?%elem_of_nil.
  - rewrite borrados_app, elem_of_app. intros [Hp|Hp].
    + rewrite Hb in Hp. apply list_elem_of_filter in Hp as [Hne Hp].
      by exists 0, g, k.
    + destruct (IH Hp) as (i & g' & k' & Hi & ?). by exists (S i), g', k'.
Qed.




(** ** When every removal succeeds *)

Lemma eliminar_copia_hecha (w : mundo) (c : ruta) (total : nat) :
  se_puede_borrar w c ->
  eliminar_copia c total w
  = (Ok (total + 1), mundo_sin w c, [Borra c; Imprime (MsgEliminado c)]).
Proof.
  intros (a & Ha & Hb).
  unfold eliminar_copia, intentar, bind, os_remove. by rewrite Ha, Hb.
Qed.

Lemma se_puede_borrar_sin (w : mundo) (r p : ruta) :
  p <> r -> se_puede_borrar w p -> se_puede_borrar (mundo_sin w r) p.
Proof.
  intros Hne (a & Ha & Hb). exists a. split; [|done].
  simpl. by rewrite lookup_delete_ne.
Qed.

Lemma se_puede_borrar_sin_todas (w : mundo) (l : list ruta) (p : ruta) :
  p ∉ l -> se_puede_borrar w p -> se_puede_borrar (fold_left mundo_sin l w) p.
Proof.
  revert w. induction l as [|x l IH]; intros w Hp Hb; [done|].
  apply not_elem_of_cons in Hp as [Hpx Hp]. simpl.
  apply IH; [done|]. by apply se_puede_borrar_sin.
Qed.

Lemma archivos_sin_todas (w : mundo) (l : list ruta) :
  archivos (fold_left mundo_sin l w) = sin_rutas (archivos w) l.
Proof. revert w. induction l as [|x l IH]; intros w; [done|]. simpl. by rewrite IH. Qed.

Lemma eliminar_copias_hechas (copias : list ruta) (w : mundo) (total : nat) :
  NoDup copias ->
  (forall c, c ∈ copias -> se_puede_borrar w c) ->
  para_cada copias eliminar_copia total w
  = (Ok (total + length copias), fold_left mundo_sin copias w,
     traza_borrados copias).
Proof.
  revert w total. induction copias as [|c copias IH]; intros w total Hnd Hb.
  - simpl. by rewrite Nat.add_0_r.
  - apply NoDup_cons in Hnd as [Hc Hnd]. cbn [para_cada].
    rewrite (bind_Ok _ _ _ _ _ _ (eliminar_copia_hecha w c total
                                    (Hb c (list_elem_of_here _ _)))).
    rewrite IH; [|done|].
    + simpl. do 3 f_equal. lia.
    + intros c' Hc'. apply se_puede_borrar_sin; [by intros ->|].
      apply Hb. by right.
Qed.

Lemma traza_borrados_proyecciones (l : list ruta) :
  borrados (traza_borrados l) = l /\
  eliminados (traza_borrados l) = l /\
  rutas_impresas (traza_borrados l) = [] /\
  grupos_anunciados (traza_borrados l) = [].
Proof.
  induction l as [|c l (Hb & He & Hi & Hg)]; [done|].
  change (traza_borrados (c :: l))
    with ([Borra c; Imprime (MsgEliminado c)] ++ traza_borrados l).
  rewrite borrados_app, eliminados_app, Hb, He.
  unfold rutas_impresas, grupos_anunciados in *.
  by rewrite !omap_app, Hi, Hg.
Qed.

(** One group whose copies can all be removed. *)
Lemma eliminar_grupo_hecho (g : string * list ruta) (total numero : nat)
    (w : mundo) :
  g.2 <> [] -> NoDup g.2 ->
  (forall p, p ∈ g.2 -> se_puede_borrar w p) ->
  exists k,
    k ∈ g.2 /\
    eliminar_grupo g (total, numero) w
    = (Ok (total + length (filter (fun r => r <> k) g.2), numero + 1),
       fold_left mundo_sin (filter (fun r => r <> k) g.2) w,
       traza_grupo numero g.2 k
         (traza_borrados (filter (fun r => r <> k) g.2))).
Proof.
  intros Hne Hnd Hb.
  destruct (archivo_mas_reciente_run w g.2 Hne) as (k & r1 & r2 & Hamr & Hr & _).
  exists k. split; [rewrite Hr; apply elem_of_app; right; left|].
  assert (Hdel := eliminar_copias_hechas (filter (fun r => r <> k) g.2) w total).
  unfold eliminar_grupo. cbn [fst snd]. rewrite bind_print.
  rewrite (bind_Ok _ _ _ _ _ _ Hamr). cbn [fst snd].
  rewrite !bind_print.
  rewrite (bind_Ok _ _ _ _ _ _ (listar_copias_run _ w)). cbn [fst snd].
  rewrite (bind_Ok _ _ _ _ _ _ (Hdel ltac:(by apply NoDup_filter)
             ltac:(by intros c [_ Hc]%list_elem_of_filter; apply Hb))).
  cbn [fst snd]. rewrite bind_print. done.
Qed.

Lemma traza_grupo_proyecciones (numero : nat) (rutas : list ruta) (k : ruta)
    (t : list evento) :
  borrados (traza_grupo numero rutas k t) = borrados t /\
  eliminados (traza_grupo numero rutas k t) = eliminados t.
Proof.
  assert (Hr : resultados (traza_grupo numero rutas k t) = resultados t).
  { unfold resultados. rewrite omap_traza_grupo by done. simpl.
    by rewrite omap_listado. }
  split.
  - unfold borrados. rewrite omap_traza_grupo by done. simpl.
    by rewrite omap_listado.
  - unfold eliminados. by rewrite Hr.
Qed.

Lemma sin_rutas_lookup_in (m : gmap string archivo) (l : list ruta) (p : ruta) :
  p ∈ l -> sin_rutas m l !! p = None.
Proof.
  revert m. induction l as [|x l IH]; intros m Hp; [by apply elem_of_nil in Hp|].
  change (sin_rutas m (x :: l)) with (sin_rutas (delete x m) l).
  destruct (decide (p ∈ l)) as [Hin|Hnin]; [by apply IH|].
  apply elem_of_cons in Hp as [->|Hp]; [|done].
  rewrite sin_rutas_lookup by done. apply lookup_delete_eq.
Qed.

Lemma length_filter_distinto (l : list string) (k : string) :
  NoDup l -> k ∈ l -> length (filter (fun r => r <> k) l) + 1 = length l.
Proof.
  intros Hnd (l1 & l2 & ->)%list_elem_of_split.
  rewrite filter_distinto by done. rewrite !length_app. simpl. lia.
Qed.

(** The loop over the groups when every copy can be removed: [ks] are
    the paths kept. *)
Lemma eliminar_grupos_hechos (d : dict) (total numero : nat) (w : mundo) :
  Forall (fun g => g.2 <> [] /\ NoDup g.2) d ->
  (forall i j g1 g2 p,
     i <> j -> d !! i = Some g1 -> d !! j = Some g2 ->
     p ∈ g1.2 -> p ∉ g2.2) ->
  (forall g p, g ∈ d -> p ∈ g.2 -> se_puede_borrar w p) ->
  exists ks t,
    Forall2 (fun g k => k ∈ g.2) d ks /\
    para_cada d eliminar_grupo (total, numero) w
    = (Ok (total + length (copias_de d ks), numero + length d),
       fold_left mundo_sin (copias_de d ks) w, t) /\
    borrados t = copias_de d ks /\
    eliminados t = copias_de d ks.
Proof.
  intros Hd. revert total numero w.
  induction Hd as [|g d [Hne Hnd] _ IH]; intros total numero w Hdis Hb.
  - exists [], []. simpl. by rewrite !Nat.add_0_r.
  - destruct (eliminar_grupo_hecho g total numero w Hne Hnd) as (k & Hk & Hrun).
    { intros p Hp. apply (Hb g); [left|done]. }
    set (c1 := filter (fun r => r <> k) g.2) in *.
    destruct (IH (total + length c1) (numero + 1) (fold_left mundo_sin c1 w))
      as (ks & t & Hks & Hruns & Hbt & Het).
    { intros i j g1 g2 p Hij Hi Hj. apply (Hdis (S i) (S j)); [lia|done..]. }
    { intros g' p Hg' Hp. apply se_puede_borrar_sin_todas.
      - intros [_ Hin]%list_elem_of_filter.
        apply list_elem_of_lookup in Hg' as [i Hi].
        by apply (Hdis 0 (S i) g g' p).
      - apply (Hb g'); [by right|done]. }
    destruct (traza_grupo_proyecciones numero g.2 k (traza_borrados c1))
      as [Hb1 He1].
    destruct (traza_borrados_proyecciones c1) as (Hb2 & He2 & _).
    exists (k :: ks), (traza_grupo numero g.2 k (traza_borrados c1) ++ t).
    split; [by constructor|].
    change (copias_de (g :: d) (k :: ks)) with (c1 ++ copias_de d ks).
    split_and!.
    + cbn [para_cada]. rewrite (bind_Ok _ _ _ _ _ _ Hrun), Hruns.
      cbn [fst snd length]. rewrite fold_left_app, length_app.
      replace (total + length c1 + length (copias_de d ks))
        with (total + (length c1 + length (copias_de d ks))) by lia.
      replace (numero + 1 + length d) with (numero + S (length d)) by lia.
      done.
    + by rewrite borrados_app, Hb1, Hb2, Hbt.
    + by rewrite eliminados_app, He1, He2, Het.
Qed.

(** X11: when the groups have no repeated path, share no path, and every
    member can be removed, every copy is removed: the removals attempted
    and the removals reported as done are the members of each group other
    than the kept one, in order; the total printed is the number of
    members less the number of groups; and at the end the copies are gone
    from the file table. *)
Theorem eliminar_todo_hecho (w : mundo) (d : dict) :
  Forall (fun g => g.2 <> [] /\ NoDup g.2) d ->
  (forall i j g1 g2 p,
     i <> j -> d !! i = Some g1 -> d !! j = Some g2 ->
     p ∈ g1.2 -> p ∉ g2.2) ->
  (forall g p, g ∈ d -> p ∈ g.2 -> se_puede_borrar w p) ->
  exists ks,
    Forall2 (fun g k => k ∈ g.2) d ks /\
    valor (eliminar_duplicados d w) = Ok tt /\
    borrados (traza (eliminar_duplicados d w)) = copias_de d ks /\
    eliminados (traza (eliminar_duplicados d w)) = copias_de d ks /\
    last (traza (eliminar_duplicados d w))
    = Some (Imprime (MsgProcesoCompletado (length (copias_de d ks)))) /\
    length (copias_de d ks) + length d = length (concat d.*2) /\
    archivos (final (eliminar_duplicados d w))
    = sin_rutas (archivos w) (copias_de d ks) /\
    (forall p, p ∈ copias_de d ks ->
       archivos (final (eliminar_duplicados d w)) !! p = None).
Proof.
  intros Hd Hdis Hb.
  destruct (eliminar_grupos_hechos d 0 1 w Hd Hdis Hb)
    as (ks & t & Hks & Hrun & Hbt & Het).
  exists ks. unfold eliminar_duplicados.
  rewrite (bind_Ok _ _ _ _ _ _ Hrun). unfold valor, traza, final. simpl.
  rewrite borrados_app, eliminados_app, Hbt, Het, last_app, archivos_sin_todas.
  simpl. rewrite !app_nil_r.
  split_and!; try done.
  - clear -Hd Hks. induction Hks as [|g k d ks Hk _ IH]; [done|].
    apply Forall_cons in Hd as [[_ Hnd] Hd].
    change (copias_de (g :: d) (k :: ks))
      with (filter (fun r => r <> k) g.2 ++ copias_de d ks).
    csimpl. rewrite !length_app.
    assert (H1 := length_filter_distinto g.2 k Hnd Hk).
    assert (H2 := IH Hd). lia.
  - intros p Hp. by apply sin_rutas_lookup_in.
Qed.

Lemma eliminar_todo_hecho_witness :
  Forall (fun g : string * list string => g.2 <> [] /\ NoDup g.2)
    [("x", ["d/a"; "d/b"])] /\
  (forall i j g1 g2 p,
     i <> j -> [("x", ["d/a"; "d/b"])] !! i = Some g1 ->
     [("x", ["d/a"; "d/b"])] !! j = Some g2 ->
     p ∈ g1.2 -> p ∉ g2.2) /\
  (forall g p, g ∈ [("x", ["d/a"; "d/b"])] -> p ∈ g.2 ->
     se_puede_borrar mundo_abc p) /\
  exists ks,
    Forall2 (fun g k => k ∈ g.2) [("x", ["d/a"; "d/b"])] ks /\
    valor (eliminar_duplicados [("x", ["d/a"; "d/b"])] mundo_abc) = Ok tt /\
    borrados (traza (eliminar_duplicados [("x", ["d/a"; "d/b"])] mundo_abc))
    = copias_de [("x", ["d/a"; "d/b"])] ks /\
    eliminados (traza (eliminar_duplicados [("x", ["d/a"; "d/b"])] mundo_abc))
    = copias_de [("x", ["d/a"; "d/b"])] ks /\
    last (traza (eliminar_duplicados [("x", ["d/a"; "d/b"])] mundo_abc))
    = Some (Imprime (MsgProcesoCompletado
                       (length (copias_de [("x", ["d/a"; "d/b"])] ks)))) /\
    length (copias_de [("x", ["d/a"; "d/b"])] ks)
    + length [("x", ["d/a"; "d/b"])]
    = length (concat [("x", ["d/a"; "d/b"])].*2) /\
    archivos (final (eliminar_duplicados [("x", ["d/a"; "d/b"])] mundo_abc))
    = sin_rutas (archivos mundo_abc) (copias_de [("x", ["d/a"; "d/b"])] ks) /\
    (forall p, p ∈ copias_de [("x", ["d/a"; "d/b"])] ks ->
       archivos (final (eliminar_duplicados [("x", ["d/a"; "d/b"])] mundo_abc))
       !! p = None).
Proof.
  assert (H1 : Forall (fun g : string * list string => g.2 <> [] /\ NoDup g.2)
                 [("x", ["d/a"; "d/b"])]).
  { constructor; [|constructor]. split; [discriminate|].
    refine (bool_decide_unpack _ _). vm_compute. exact I. }
  assert (H2 : forall i j g1 g2 p,
     i <> j -> [("x", ["d/a"; "d/b"])] !! i = Some g1 ->
     [("x", ["d/a"; "d/b"])] !! j = Some g2 ->
     p ∈ g1.2 -> p ∉ g2.2).
  { intros [|i] [|j] g1 g2 p Hij Hi Hj; done. }
  assert (H3 : forall g p, g ∈ [("x", ["d/a"; "d/b"])] -> p ∈ g.2 ->
     se_puede_borrar mundo_abc p).
  { intros g p ->%list_elem_of_singleton Hp. simpl in Hp.
    apply elem_of_cons in Hp as [->|Hp];
      [|apply list_elem_of_singleton in Hp as ->];
      eexists; (split; [vm_compute; reflexivity|reflexivity]). }
  split; [exact H1|]. split; [exact H2|]. split; [exact H3|].
  exact (eliminar_todo_hecho mundo_abc [("x", ["d/a"; "d/b"])] H1 H2 H3).
Defined.

(** ** Scanning again after the removals *)

Lemma rutas_de_sin (r : ruta) (pasos : list paso_walk) :
  rutas_de (map (sin_nombre r) pasos) = filter (fun p => p <> r) (rutas_de pasos).
Proof.
  induction pasos as [|[[actual subs] noms] pasos IH]; [done|].
  unfold rutas_de in *. simpl. rewrite filter_app, IH. f_equal.
  clear IH. induction noms as [|n noms IH]; [done|].
  rewrite filter_cons. simpl. rewrite (filter_cons _ (os_path_join actual n)).
  destruct (decide (os_path_join actual n <> r)); simpl; by rewrite IH.
Qed.

Lemma rutas_recorridas_sin_todas (w : mundo) (l : list ruta) (c : ruta) :
  rutas_recorridas (fold_left mundo_sin l w) c
  = filter (fun p => p ∉ l) (rutas_recorridas w c).
Proof.
  revert w. induction l as [|x l IH]; intros w.
  - simpl. symmetry. apply filter_todos, Forall_forall.
    intros p _. apply not_elem_of_nil.
  - simpl. rewrite IH. unfold rutas_recorridas at 1. simpl.
    rewrite rutas_de_sin. fold (rutas_recorridas w c).
    rewrite list_filter_filter. apply list_filter_iff.
    intros p. rewrite not_elem_of_cons. tauto.
Qed.

Lemma huella_sin_todas (w : mundo) (l : list ruta) (p : ruta) :
  p ∉ l -> huella (fold_left mundo_sin l w) p = huella w p.
Proof.
  intros Hp. unfold huella.
  by rewrite archivos_sin_todas, sin_rutas_lookup.
Qed.

Lemma copias_de_elem_of (d : dict) (ks : list ruta) (i : nat)
    (g : string * list ruta) (k p : ruta) :
  d !! i = Some g -> ks !! i = Some k ->
  p ∈ g.2 -> p <> k -> p ∈ copias_de d ks.
Proof.
  revert ks i. induction d as [|g0 d IH]; intros [|k0 ks] [|i] Hi Hk Hp Hne;
    try done; change (copias_de (g0 :: d) (k0 :: ks))
      with (filter (fun r => r <> k0) g0.2 ++ copias_de d ks);
    apply elem_of_app.
  - simpl in Hi, Hk. injection Hi as ->. injection Hk as ->.
    left. by apply list_elem_of_filter.
  - right. by apply (IH ks i).
Qed.

Lemma NoDup_todos_iguales {A} (l : list A) (k : A) :
  NoDup l -> (forall x, x ∈ l -> x = k) -> length l <= 1.
Proof.
  intros Hnd Hk. destruct l as [|a [|b l]]; simpl; [lia|lia|].
  exfalso. apply NoDup_cons in Hnd as [Hab _]. apply Hab.
  rewrite (Hk a) by left. rewrite <- (Hk b) at 1 by (right; left). left.
Qed.

Lemma filter_ninguno {A} (P : A -> Prop) `{!forall x, Decision (P x)} (l : list A) :
  (forall x, x ∈ l -> ~ P x) -> filter P l = [].
Proof.
  induction l as [|x l IH]; intros Hno; [done|].
  rewrite filter_cons_False by (apply Hno; left). apply IH.
  intros y Hy. apply Hno. by right.
Qed.

(** What [buscar_duplicados] returns is fit for [eliminar_duplicados]
    when the walk has no path twice: no group is empty, none lists a path
    twice and no two share a path. *)
Lemma grupos_bien_formados (w : mundo) (carpeta : ruta) (d : dict) :
  NoDup (rutas_recorridas w carpeta) ->
  valor (buscar_duplicados carpeta w) = Ok d ->
  Forall (fun g => g.2 <> [] /\ NoDup g.2) d /\
  (forall i j g1 g2 p,
     i <> j -> d !! i = Some g1 -> d !! j = Some g2 ->
     p ∈ g1.2 -> p ∉ g2.2).
Proof.
  intros Hnd Hd.
  destruct (buscar_duplicados_run w carpeta) as (d' & t & Hrun & Hkeys & Hin & _).
  rewrite Hrun in Hd. injection Hd as ->. split.
  - apply Forall_forall. intros [h v] [-> Hl]%Hin. simpl. split.
    + intros He. rewrite He in Hl. simpl in Hl. lia.
    + by apply NoDup_filter.
  - intros i j [h1 v1] [h2 v2] p Hij Hi Hj Hp1 Hp2. simpl in Hp1, Hp2.
    assert (H1 := list_elem_of_lookup_2 _ _ _ Hi).
    assert (H2 := list_elem_of_lookup_2 _ _ _ Hj).
    apply Hin in H1 as [-> _]. apply Hin in H2 as [-> _].
    apply list_elem_of_filter in Hp1 as [Hp1 _].
    apply list_elem_of_filter in Hp2 as [Hp2 _].
    assert (h1 = h2) as -> by congruence.
    apply Hij. apply (NoDup_lookup d.*1 i j h2 Hkeys).
    + rewrite list_lookup_fmap. apply (f_equal (fmap fst)) in Hi. exact Hi.
    + rewrite list_lookup_fmap. apply (f_equal (fmap fst)) in Hj. exact Hj.
Qed.

(** X12: after a run in which every removal succeeds, no duplicate is
    left.  When the walk lists no path twice and every member of every
    group found can be removed, [eliminar_duplicados] on what
    [buscar_duplicados] found returns normally, and [buscar_duplicados]
    on the same folder in the world it leaves finds nothing. *)
Theorem sin_duplicados_despues (w : mundo) (carpeta : ruta) (d : dict) :
  NoDup (rutas_recorridas w carpeta) ->
  valor (buscar_duplicados carpeta w) = Ok d ->
  (forall g p, g ∈ d -> p ∈ g.2 -> se_puede_borrar w p) ->
  valor (eliminar_duplicados d w) = Ok tt /\
  valor (buscar_duplicados carpeta (final (eliminar_duplicados d w))) = Ok [].
Proof.
  intros Hnd Hd Hb.
  destruct (grupos_bien_formados w carpeta d Hnd Hd) as [Hbien Hdis].
  destruct (eliminar_grupos_hechos d 0 1 w Hbien Hdis Hb)
    as (ks & t & Hks & Hrun & _ & _).
  unfold eliminar_duplicados at 1 2. rewrite (bind_Ok _ _ _ _ _ _ Hrun).
  unfold valor at 1, final. simpl. split; [done|].
  set (D := copias_de d ks) in *. set (w' := fold_left mundo_sin D w).
  rewrite buscar_duplicados_ecuacion. unfold valor. simpl. f_equal.
  unfold grupos_de. apply filter_ninguno.
  intros [h v] Hv. apply list_elem_of_In, in_map_iff in Hv as (h' & [= <- <-] & _).
  simpl. apply Nat.le_ngt. unfold w'.
  rewrite rutas_recorridas_sin_todas. unfold grupo. rewrite list_filter_filter.
  set (paths := rutas_recorridas w carpeta) in *.
  assert (Heq : filter (fun p => huella (fold_left mundo_sin D w) p = Some h' /\ p ∉ D) paths
                = filter (fun p => p ∉ D) (grupo w paths h')).
  { unfold grupo. rewrite list_filter_filter. apply list_filter_iff.
    intros p. split.
    - intros [Hh Hp]. split; [done|]. by rewrite <- (huella_sin_todas w D p).
    - intros [Hp Hh]. split; [|done]. by rewrite huella_sin_todas. }
  rewrite Heq. clear Heq.
  destruct (decide (1 < length (grupo w paths h'))) as [Hl|Hl];
    [|etransitivity; [apply length_filter|lia]].
  destruct (buscar_duplicados_run w carpeta) as (d' & t' & Hrun' & _ & Hin & _).
  rewrite Hrun' in Hd. injection Hd as ->.
  assert (Hg : (h', grupo w paths h') ∈ d) by (by apply Hin).
  apply list_elem_of_lookup in Hg as [i Hi].
  destruct (Forall2_lookup_l _ _ _ _ _ Hks Hi) as (k & Hk & Hkg).
  apply (NoDup_todos_iguales _ k).
  - by apply NoDup_filter, NoDup_filter.
  - intros p [Hp Hpg]%list_elem_of_filter.
    destruct (decide (p = k)) as [|Hne]; [done|]. exfalso. apply Hp.
    by apply (copias_de_elem_of d ks i (h', grupo w paths h') k p).
Qed.

Lemma sin_duplicados_despues_witness :
  NoDup (rutas_recorridas mundo_abc "d") /\
  valor (buscar_duplicados "d" mundo_abc)
  = Ok [("ba7816bf8f01cfea414140de5dae2223b00361a396177a9cb410ff61f20015ad",
         ["d/a"; "d/b"])] /\
  (forall g p,
     g ∈ [("ba7816bf8f01cfea414140de5dae2223b00361a396177a9cb410ff61f20015ad",
           ["d/a"; "d/b"])] ->
     p ∈ g.2 -> se_puede_borrar mundo_abc p) /\
  valor (eliminar_duplicados
           [("ba7816bf8f01cfea414140de5dae2223b00361a396177a9cb410ff61f20015ad",
             ["d/a"; "d/b"])] mundo_abc) = Ok tt /\
  valor (buscar_duplicados "d"
           (final (eliminar_duplicados
              [("ba7816bf8f01cfea414140de5dae2223b00361a396177a9cb410ff61f20015ad",
                ["d/a"; "d/b"])] mundo_abc))) = Ok [].
Proof.
  assert (H1 : NoDup (rutas_recorridas mundo_abc "d")).
  { refine (bool_decide_unpack _ _). vm_compute. exact I. }
  assert (H2 : valor (buscar_duplicados "d" mundo_abc)
    = Ok [("ba7816bf8f01cfea414140de5dae2223b00361a396177a9cb410ff61f20015ad",
           ["d/a"; "d/b"])]) by (vm_compute; reflexivity).
  assert (H3 : forall g p,
     g ∈ [("ba7816bf8f01cfea414140de5dae2223b00361a396177a9cb410ff61f20015ad",
           ["d/a"; "d/b"])] ->
     p ∈ g.2 -> se_puede_borrar mundo_abc p).
  { intros g p ->%list_elem_of_singleton Hp. simpl in Hp.
    apply elem_of_cons in Hp as [->|Hp];
      [|apply list_elem_of_singleton in Hp as ->];
      eexists; (split; [vm_compute; reflexivity|reflexivity]). }
  split; [exact H1|]. split; [exact H2|]. split; [exact H3|].
  exact (sin_duplicados_despues mundo_abc "d" _ H1 H2 H3).
Defined.

(** ** More on [mostrar_duplicados_encontrados] *)

Lemma mostrar_ruta_completo (w : mundo) (r : ruta) :
  mostrar_ruta r tt w
  = (Ok tt, w,
     [Consulta r; Imprime (MsgRuta r);
      Imprime (MsgUltimaModificacion (texto_fecha w r))]).
Proof.
  unfold mostrar_ruta, bind, intentar, os_path_getmtime, formatear, print,
    emitir, ret, texto_fecha, fecha_de.
  destruct (archivos w !! r) as [a|]; simpl; [|done].
  destruct (fecha a) as [f|]; simpl; [|done].
  by destruct (fecha_legible w f).
Qed.

Lemma mostrar_grupo_completo (w : mundo) (g : string * list ruta) :
  mostrar_grupo g tt w = (Ok tt, w, traza_mostrar_grupo w g).
Proof.
  unfold mostrar_grupo, traza_mostrar_grupo.
  assert (H : para_cada g.2 mostrar_ruta tt w
    = (Ok tt, w,
       flat_map (fun r => [Consulta r; Imprime (MsgRuta r);
                           Imprime (MsgUltimaModificacion (texto_fecha w r))]) g.2)).
  { induction g.2 as [|r l IH]; [done|].
    cbn [para_cada]. by rewrite (bind_Ok _ _ _ _ _ _ (mostrar_ruta_completo w r)), IH. }
  by rewrite (bind_Ok _ _ _ _ _ _ H).
Qed.


Lemma mostrar_completo (w : mundo) (d : dict) :
  mostrar_duplicados_encontrados d w = (Ok tt, w, traza_mostrar w d).
Proof.
  unfold mostrar_duplicados_encontrados. rewrite bind_print.
  assert (H : para_cada d mostrar_grupo tt w
              = (Ok tt, w, flat_map (traza_mostrar_grupo w) d)).
  { induction d as [|g d IH]; [done|].
    cbn [para_cada]. by rewrite (bind_Ok _ _ _ _ _ _ (mostrar_grupo_completo w g)), IH. }
  by rewrite H.
Qed.

(** A file without a readable date among two. *)
Example mostrar_desconocida :
  traza (mostrar_duplicados_encontrados [("x", ["d/a"; "d/b"])] mundo_epoca)
  = [Imprime MsgEncontrados;
     Consulta "d/a"; Imprime (MsgRuta "d/a");
     Imprime (MsgUltimaModificacion "desconocida");
     Consulta "d/b"; Imprime (MsgRuta "d/b");
     Imprime (MsgUltimaModificacion "fecha");
     Imprime MsgLineaEnBlanco].
Proof. vm_compute. reflexivity. Qed.

Lemma omap_mostrar_grupo {B} (f : evento -> option B) (w : mundo)
    (g : string * list ruta) :
  (forall r, f (Consulta r) = None) ->
  (forall s, f (Imprime (MsgUltimaModificacion s)) = None) ->
  f (Imprime MsgLineaEnBlanco) = None ->
  omap f (traza_mostrar_grupo w g)
  = omap f (map (fun r => Imprime (MsgRuta r)) g.2).
Proof.
  intros Hc Hu Hl.
  assert (Hcons : forall x l, omap f (x :: l) = option_list (f x) ++ omap f l).
  { intros x l. simpl. by destruct (f x). }
  unfold traza_mostrar_grupo. rewrite omap_app, Hcons, Hl. simpl.
  rewrite app_nil_r. induction g.2 as [|r l IH]; [done|].
  change (omap f (Consulta r :: Imprime (MsgRuta r)
            :: Imprime (MsgUltimaModificacion (texto_fecha w r))
            :: flat_map (fun r => [Consulta r; Imprime (MsgRuta r);
                 Imprime (MsgUltimaModificacion (texto_fecha w r))]) l)
          = omap f (Imprime (MsgRuta r) :: map (fun r => Imprime (MsgRuta r)) l)).
  by rewrite !Hcons, Hc, Hu, IH.
Qed.

Lemma traza_mostrar_grupo_proyecciones (w : mundo) (g : string * list ruta) :
  borrados (traza_mostrar_grupo w g) = [] /\
  abiertos (traza_mostrar_grupo w g) = [] /\
  preguntas (traza_mostrar_grupo w g) = [] /\
  rutas_impresas (traza_mostrar_grupo w g) = g.2.
Proof.
  unfold borrados, abiertos, preguntas, rutas_impresas.
  rewrite !omap_mostrar_grupo by done.
  rewrite !omap_listado by done. split_and!; try done.
  apply rutas_impresas_listado.
Qed.

Lemma traza_mostrar_proyecciones (w : mundo) (d : dict) :
  borrados (traza_mostrar w d) = [] /\
  abiertos (traza_mostrar w d) = [] /\
  preguntas (traza_mostrar w d) = [] /\
  rutas_impresas (traza_mostrar w d) = concat d.*2.
Proof.
  assert (H : borrados (flat_map (traza_mostrar_grupo w) d) = [] /\
              abiertos (flat_map (traza_mostrar_grupo w) d) = [] /\
              preguntas (flat_map (traza_mostrar_grupo w) d) = [] /\
              rutas_impresas (flat_map (traza_mostrar_grupo w) d) = concat d.*2).
  { induction d as [|g d (Hb & Ha & Hp & Hi)]; [done|].
    destruct (traza_mostrar_grupo_proyecciones w g) as (H1 & H2 & H3 & H4).
    change (flat_map (traza_mostrar_grupo w) (g :: d))
      with (traza_mostrar_grupo w g ++ flat_map (traza_mostrar_grupo w) d).
    unfold borrados, abiertos, preguntas, rutas_impresas in *.
    rewrite !omap_app, H1, H2, H3, H4, Hb, Ha, Hp, Hi. done. }
  exact H.
Qed.

(** ** More on [main] *)

(** The whole of [main] once a valid folder has been typed. *)
Lemma main_completo (w : mundo) (l1 : string) (resto : list string) :
  entrada w = l1 :: resto ->
  strip_comillas (strip l1) ∈ carpetas w ->
  let carpeta := strip_comillas (strip l1) in
  let w1 := con_entrada w resto in
  let d := grupos_de w1 (rutas_recorridas w1 carpeta) in
  let pre :=
    [Imprime MsgTitulo; Pregunta PideCarpeta; EsCarpeta carpeta;
     Imprime MsgEscaneando; Recorre carpeta]
    ++ traza_lecturas w1 (rutas_recorridas w1 carpeta)
    ++ [Imprime MsgBusquedaCompletada] in
  main w
  = if bool_decide (d = []) then
      (Ok tt, w1, pre ++ [Imprime MsgSinDuplicados])
    else
      match resto with
      | [] => (Lanza EOFError, w1,
               pre ++ traza_mostrar w1 d ++ [Pregunta PideConfirmacion])
      | l2 :: resto' =>
          if bool_decide (lower (strip l2) = "si") then
            (valor (eliminar_duplicados d (con_entrada w resto')),
             final (eliminar_duplicados d (con_entrada w resto')),
             pre ++ traza_mostrar w1 d ++ Pregunta PideConfirmacion
                 :: traza (eliminar_duplicados d (con_entrada w resto')))
          else
            (Ok tt, con_entrada w resto',
             pre ++ traza_mostrar w1 d
                 ++ [Pregunta PideConfirmacion; Imprime MsgCancelada])
      end.
Proof.
  intros He Hdir carpeta w1 d pre. unfold main. rewrite bind_print.
  rewrite (bind_Ok _ _ _ l1 w1 [Pregunta PideCarpeta])
    by (by rewrite input_run, He).
  cbn [fst snd]. fold carpeta.
  rewrite (bind_Ok _ _ _ true w1 [EsCarpeta carpeta])
    by (unfold os_path_isdir; by rewrite bool_decide_eq_true_2).
  cbn [fst snd negb].
  rewrite (bind_Ok _ _ _ _ _ _ (buscar_duplicados_ecuacion w1 carpeta)).
  cbn [fst snd]. fold d. case_bool_decide as Hd.
  - unfold pre. simpl. by rewrite <- !app_assoc.
  - rewrite (bind_Ok _ _ _ _ _ _ (mostrar_completo w1 d)). cbn [fst snd].
    destruct resto as [|l2 resto'].
    + unfold pre. simpl. by rewrite <- !app_assoc.
    + rewrite (bind_Ok _ _ _ l2 (con_entrada w resto') [Pregunta PideConfirmacion])
        by done.
      cbn [fst snd]. case_bool_decide as Hsi.
      * unfold valor, final, traza, pre. simpl. by rewrite <- !app_assoc.
      * unfold pre. simpl. by rewrite <- !app_assoc.
Qed.

Lemma pre_proyecciones (w : mundo) (carpeta : ruta) (l : list ruta) (t : list evento) :
  borrados ([Imprime MsgTitulo; Pregunta PideCarpeta; EsCarpeta carpeta;
             Imprime MsgEscaneando; Recorre carpeta]
            ++ traza_lecturas w l ++ [Imprime MsgBusquedaCompletada] ++ t)
  = borrados t /\
  preguntas ([Imprime MsgTitulo; Pregunta PideCarpeta; EsCarpeta carpeta;
              Imprime MsgEscaneando; Recorre carpeta]
             ++ traza_lecturas w l ++ [Imprime MsgBusquedaCompletada] ++ t)
  = PideCarpeta :: preguntas t.
Proof.
  assert (Hp : preguntas (traza_lecturas w l) = []).
  { induction l as [|p l IH]; [done|].
    assert (E : traza_lecturas w (p :: l)
                = traza_lecturas w [p] ++ traza_lecturas w l)
      by apply (traza_lecturas_app w [p] l).
    rewrite E. unfold preguntas in *. rewrite omap_app, IH. simpl.
    by destruct (huella w p). }
  destruct (traza_lecturas_proyecciones w l) as (_ & Hb & _).
  unfold borrados, preguntas in *. rewrite !omap_app, Hb, Hp. done.
Qed.

(** X14: with a valid folder in which no two files have the same digest,
    [main] says so and returns; it does not ask for a confirmation, it
    leaves the second line untyped, and it removes nothing. *)
Theorem main_sin_duplicados (w : mundo) (l1 : string) (resto : list string) :
  entrada w = l1 :: resto ->
  strip_comillas (strip l1) ∈ carpetas w ->
  valor (buscar_duplicados (strip_comillas (strip l1)) (con_entrada w resto))
  = Ok [] ->
  valor (main w) = Ok tt /\
  last (traza (main w)) = Some (Imprime MsgSinDuplicados) /\
  preguntas (traza (main w)) = [PideCarpeta] /\
  entrada (final (main w)) = resto /\
  borrados (traza (main w)) = [] /\
  archivos (final (main w)) = archivos w.
Proof.
  intros He Hdir Hd. rewrite buscar_duplicados_ecuacion in Hd.
  injection Hd as Hd. rewrite (main_completo w l1 resto He Hdir). cbv zeta.
  rewrite Hd. simpl bool_decide. cbn [valor final traza fst snd].
  unfold valor, final, traza. cbn [fst snd].
  rewrite <- !app_assoc.
  destruct (pre_proyecciones (con_entrada w resto) (strip_comillas (strip l1))
              (rutas_recorridas (con_entrada w resto) (strip_comillas (strip l1)))
              [Imprime MsgSinDuplicados]) as [Hb Hp].
  rewrite Hb, Hp. split_and!; try done.
  rewrite !app_assoc. apply last_snoc.
Qed.

(** ** The answers that confirm *)

Lemma append_String (c : ascii) (l x : string) :
  String c l +:+ x = String c (l +:+ x).
Proof. reflexivity. Qed.

Lemma lstrip_blancos (s : string) :
  exists l, blancos l = true /\ s = l +:+ lstrip es_espacio s.
Proof.
  induction s as [|c s (l & Hl & Hs)]; [by exists EmptyString|].
  cbn [lstrip]. destruct (es_espacio c) eqn:Hc.
  - exists (String c l). cbn [blancos String.append]. rewrite Hc, Hl.
    split; [done|]. rewrite Hs at 1. reflexivity.
  - by exists EmptyString.
Qed.

Lemma rstrip_blancos (s : string) :
  exists r, blancos r = true /\ s = rstrip es_espacio s +:+ r.
Proof.
  induction s as [|c s (r & Hr & Hs)]; [by exists EmptyString|].
  cbn [rstrip]. destruct (rstrip es_espacio s) as [|a x] eqn:E.
  - change (s = r) in Hs. subst r. destruct (es_espacio c) eqn:Hc.
    + exists (String c s). cbn [blancos]. by rewrite Hc, Hr.
    + by exists s.
  - exists r. split; [done|]. rewrite Hs at 1. reflexivity.
Qed.

Lemma lstrip_app_blancos (l x : string) :
  blancos l = true ->
  lstrip es_espacio (l +:+ x) = lstrip es_espacio x.
Proof.
  induction l as [|c l IH]; [done|]. rewrite append_String. cbn [blancos lstrip].
  intros [Hc Hl]%andb_true_iff. rewrite Hc. by apply IH.
Qed.

Lemma rstrip_blancos_nil (r : string) :
  blancos r = true -> rstrip es_espacio r = EmptyString.
Proof.
  induction r as [|c r IH]; [done|]. cbn [blancos rstrip].
  intros [Hc Hr]%andb_true_iff. by rewrite IH, Hc.
Qed.

Lemma rstrip_app_blancos (x r : string) :
  blancos r = true ->
  rstrip es_espacio (x +:+ r) = rstrip es_espacio x.
Proof.
  intros Hr. induction x as [|c x IH].
  - by apply rstrip_blancos_nil.
  - rewrite append_String. cbn [rstrip]. by rewrite IH.
Qed.

Lemma minuscula_s (a : ascii) :
  minuscula a = "s"%char -> a = "s"%char \/ a = "S"%char.
Proof.
  destruct a as [[] [] [] [] [] [] [] []]; vm_compute; intros H;
    first [discriminate H | by left | by right].
Qed.

Lemma minuscula_i (a : ascii) :
  minuscula a = "i"%char -> a = "i"%char \/ a = "I"%char.
Proof.
  destruct a as [[] [] [] [] [] [] [] []]; vm_compute; intros H;
    first [discriminate H | by left | by right].
Qed.

Lemma lower_si (m : string) :
  lower m = "si" <-> m = "si" \/ m = "Si" \/ m = "sI" \/ m = "SI".
Proof.
  split.
  - destruct m as [|a [|b [|c m]]]; simpl; try done.
    intros [= Ha Hb].
    destruct (minuscula_s a Ha) as [->| ->], (minuscula_i b Hb) as [->| ->];
      auto.
  - intros [->|[->|[->| ->]]]; reflexivity.
Qed.

(** X15: the answers that make [main] go on to the removals are exactly
    [si], [Si], [sI] and [SI], with any white space before and after. *)
Theorem respuestas_afirmativas (s : string) :
  lower (strip s) = "si" <->
  exists l m r,
    s = l +:+ m +:+ r /\ blancos l = true /\ blancos r = true /\
    (m = "si" \/ m = "Si" \/ m = "sI" \/ m = "SI").
Proof.
  split.
  - intros Hsi%lower_si. unfold strip, strip_con in *.
    destruct (lstrip_blancos s) as (l & Hl & Hs).
    destruct (rstrip_blancos (lstrip es_espacio s)) as (r & Hr & Hs').
    exists l, (rstrip es_espacio (lstrip es_espacio s)), r.
    split_and!; [|done|done|done]. by rewrite <- Hs', <- Hs.
  - intros (l & m & r & -> & Hl & Hr & Hm). apply lower_si.
    unfold strip, strip_con. rewrite lstrip_app_blancos by done.
    assert (H : lstrip es_espacio (m +:+ r) = m +:+ r)
      by (by destruct Hm as [->|[->|[->| ->]]]).
    rewrite H, rstrip_app_blancos by done.
    assert (H' : rstrip es_espacio m = m)
      by (by destruct Hm as [->|[->|[->| ->]]]).
    by rewrite H'.
Qed.

(** An answer with a tab before and blanks after, and one with a blank
    inside. *)
Example respuestas_ejemplos :
  lower (strip (String (ascii_of_nat 9) "Si  ")) = "si" /\
  lower (strip "s i") <> "si" /\
  lower (strip "s") <> "si" /\
  lower (strip "yes") <> "si".
Proof. vm_compute. split_and!; [done|discriminate..]. Qed.

(** ** What escapes from [main], and what it removes *)

Lemma grupos_de_no_vacios (w : mundo) (l : list ruta) :
  Forall (fun g => g.2 <> []) (grupos_de w l).
Proof.
  apply Forall_forall. intros g [Hg _]%list_elem_of_filter.
  intros He. rewrite He in Hg. simpl in Hg. lia.
Qed.

Lemma grupos_de_elem_of (w : mundo) (l : list ruta) (g : string * list ruta) :
  g ∈ grupos_de w l -> g.2 = grupo w l g.1.
Proof.
  intros [_ Hg]%list_elem_of_filter.
  apply list_elem_of_In, in_map_iff in Hg as (h & <- & _). done.
Qed.

Lemma eliminar_duplicados_Ok (w : mundo) (d : dict) :
  Forall (fun g => g.2 <> []) d ->
  exists w' segs,
    eliminar_duplicados d w
    = (Ok tt, w',
       concat segs
       ++ [Imprime (MsgProcesoCompletado (length (eliminados (concat segs))))]) /\
    Forall2 grupo_procesado d segs.
Proof.
  intros Hd.
  destruct (eliminar_grupos_run d 0 1 w Hd) as (w' & segs & Hrun & Hproc & _).
  exists w', segs. split; [|done].
  unfold eliminar_duplicados. by rewrite (bind_Ok _ _ _ _ _ _ Hrun).
Qed.


(** X17: [main] removes only duplicates.  Every path it passes to
    [os.remove] is a path of the walk of the folder typed, it has a
    digest, and another path of that walk has the same digest. *)
Theorem main_solo_borra_duplicados (w : mundo) (p : ruta) :
  p ∈ borrados (traza (main w)) ->
  exists l1 resto q h,
    entrada w = l1 :: resto /\
    q <> p /\
    p ∈ rutas_recorridas w (strip_comillas (strip l1)) /\
    q ∈ rutas_recorridas w (strip_comillas (strip l1)) /\
    valor (obtener_hash p w) = Ok (Some h) /\
    valor (obtener_hash q w) = Ok (Some h).
Proof.
  intros Hp.
  destruct (entrada w) as [|l1 resto] eqn:He.
  { rewrite (main_sin_entrada w He) in Hp. by apply elem_of_nil in Hp. }
  destruct (decide (strip_comillas (strip l1) ∈ carpetas w)) as [Hdir|Hdir];
    [|rewrite (main_raiz_invalida w l1 resto He Hdir) in Hp;
      by apply elem_of_nil in Hp].
  rewrite (main_completo w l1 resto He Hdir) in Hp. cbv zeta in Hp.
  set (w1 := con_entrada w resto) in *.
  set (carpeta := strip_comillas (strip l1)) in *.
  set (d := grupos_de w1 (rutas_recorridas w1 carpeta)) in *.
  destruct (traza_mostrar_proyecciones w1 d) as (Hbm & _).
  case_bool_decide as Hd.
  { exfalso. unfold traza in Hp. cbn [snd] in Hp. rewrite <- !app_assoc in Hp.
    destruct (pre_proyecciones w1 carpeta (rutas_recorridas w1 carpeta)
                [Imprime MsgSinDuplicados]) as [Hb _].
    rewrite Hb in Hp. by apply elem_of_nil in Hp. }
  destruct resto as [|l2 resto'].
  { exfalso. unfold traza in Hp. cbn [snd] in Hp. rewrite <- !app_assoc in Hp.
    destruct (pre_proyecciones w1 carpeta (rutas_recorridas w1 carpeta)
                (traza_mostrar w1 d ++ [Pregunta PideConfirmacion])) as [Hb _].
    rewrite Hb, borrados_app, Hbm in Hp. by apply elem_of_nil in Hp. }
  case_bool_decide as Hsi.
  - destruct (eliminar_duplicados_Ok (con_entrada w resto') d
                (grupos_de_no_vacios _ _)) as (w' & segs & Hrun & Hproc).
    rewrite Hrun in Hp. unfold traza in Hp. cbn [snd] in Hp.
    rewrite <- !app_assoc in Hp.
    destruct (pre_proyecciones w1 carpeta (rutas_recorridas w1 carpeta)
                (traza_mostrar w1 d ++ Pregunta PideConfirmacion
                 :: concat segs
                 ++ [Imprime (MsgProcesoCompletado
                                (length (eliminados (concat segs))))])) as [Hb _].
    rewrite Hb, borrados_app, Hbm in Hp.
    change (p ∈ borrados (concat segs
              ++ [Imprime (MsgProcesoCompletado
                             (length (eliminados (concat segs))))])) in Hp.
    rewrite borrados_app in Hp. simpl in Hp. rewrite app_nil_r in Hp.
    destruct (procesados_borrados d segs p Hproc Hp)
      as (i & g & k & Hi & Hk & Hpg & Hne).
    assert (Hg := grupos_de_elem_of w1 _ g (list_elem_of_lookup_2 _ _ _ Hi)).
    rewrite Hg in Hk, Hpg.
    apply list_elem_of_filter in Hk as [Hhk Hk].
    apply list_elem_of_filter in Hpg as [Hhp Hpg].
    exists l1, (l2 :: resto'), k, g.1.
    split_and!; [done|by intros ->|done|done| |].
    + rewrite obtener_hash_valor. by f_equal.
    + rewrite obtener_hash_valor. by f_equal.
  - exfalso. unfold traza in Hp. cbn [snd] in Hp. rewrite <- !app_assoc in Hp.
    destruct (pre_proyecciones w1 carpeta (rutas_recorridas w1 carpeta)
                (traza_mostrar w1 d
                 ++ [Pregunta PideConfirmacion; Imprime MsgCancelada])) as [Hb _].
    rewrite Hb, borrados_app, Hbm in Hp. by apply elem_of_nil in Hp.
Qed.

Lemma main_solo_borra_duplicados_witness :
  ("d/a" ∈ borrados (traza (main (mundo_pregunta "si")))) /\
  exists l1 resto q h,
    entrada (mundo_pregunta "si") = l1 :: resto /\
    q <> "d/a" /\
    ("d/a" ∈ rutas_recorridas (mundo_pregunta "si") (strip_comillas (strip l1))) /\
    (q ∈ rutas_recorridas (mundo_pregunta "si") (strip_comillas (strip l1))) /\
    valor (obtener_hash "d/a" (mundo_pregunta "si")) = Ok (Some h) /\
    valor (obtener_hash q (mundo_pregunta "si")) = Ok (Some h).
Proof.
  assert (H : "d/a" ∈ borrados (traza (main (mundo_pregunta "si")))).
  { refine (bool_decide_unpack _ _). vm_compute. exact I. }
  split; [exact H|]. exact (main_solo_borra_duplicados _ "d/a" H).
Defined.

Lemma main_sin_duplicados_witness :
  entrada mundo_unicos = "d" :: ["si"] /\
  (strip_comillas (strip "d") ∈ carpetas mundo_unicos) /\
  valor (buscar_duplicados (strip_comillas (strip "d"))
           (con_entrada mundo_unicos ["si"])) = Ok [] /\
  valor (main mundo_unicos) = Ok tt /\
  last (traza (main mundo_unicos)) = Some (Imprime MsgSinDuplicados) /\
  preguntas (traza (main mundo_unicos)) = [PideCarpeta] /\
  entrada (final (main mundo_unicos)) = ["si"] /\
  borrados (traza (main mundo_unicos)) = [] /\
  archivos (final (main mundo_unicos)) = archivos mundo_unicos.
Proof.
  assert (Hdir : strip_comillas (strip "d") ∈ carpetas mundo_unicos).
  { refine (bool_decide_unpack _ _). vm_compute. exact I. }
  assert (Hd : valor (buscar_duplicados (strip_comillas (strip "d"))
                        (con_entrada mundo_unicos ["si"])) = Ok [])
    by (vm_compute; reflexivity).
  split; [reflexivity|]. split; [exact Hdir|]. split; [exact Hd|].
  exact (main_sin_duplicados mundo_unicos "d" ["si"] eq_refl Hdir Hd).
Defined.
